(** * SWAP accounting: the balance ledger, the cheque codec, the contract
      check, the handshake and the peer registry of the swap service.

    The development follows the Go sources: [swap/protocol.go] (handshake,
    [run], the peer registry) and the swap test file (the bookings oracle,
    the cheque test vectors, the state-store restart test).  Functions of the
    repository that are not among these sources are introduced in clearly
    marked definitions. *)

From Stdlib Require Import ZArith List String Ascii Bool Lia.
From Bignums Require Import BigZ.
From stdpp Require Import gmap strings list.
Import ListNotations.
Local Open Scope Z_scope.

(** ** Common data *)

(** Go's [error] results: [nil] is [None]. *)
Inductive error : Type :=
  | ErrEmptyAddressInSignature      (* "empty address in handshake" *)
  | ErrNotASwapContract             (* cswap.ErrNotASwapContract *)
  | ErrorNotFound                   (* "ErrorNotFound" *)
  | ErrInvalidChequeSignature
  | ErrStoreClosed
  | ErrBackend (reason : string)    (* an I/O error of a collaborator *)
  | ErrHandshake (cause : error).   (* an error reported by the handshake exchange *)

Inductive Result (A : Type) : Type :=
  | Ok (a : A)
  | Err (e : error).
Arguments Ok {A} a.
Arguments Err {A} e.

(** [enode.ID] is a 32-byte identifier; it is kept as the number its bytes
    spell, which is what a Go map compares. *)
Abbreviation ID := N.

(** [int64] arithmetic: the result of [+=] wraps around. *)
Definition wrap64 (z : Z) : Z := (z + 2 ^ 63) mod 2 ^ 64 - 2 ^ 63.
Definition add64 (a b : Z) : Z := wrap64 (a + b).

Definition int64 (z : Z) : Prop := - 2 ^ 63 <= z < 2 ^ 63.

(** ** Byte strings *)

(** A Go [byte] is kept as the number it holds, from 0 to 255, and a
    [[]byte] as the list of its bytes. *)
Abbreviation bytes := (list Z).

Definition hexDigit (c : ascii) : option Z :=
  let n := Z.of_N (N_of_ascii c) in
  if (48 <=? n) && (n <=? 57) then Some (n - 48)          (* 0..9 *)
  else if (97 <=? n) && (n <=? 102) then Some (n - 87)    (* a..f *)
  else if (65 <=? n) && (n <=? 70) then Some (n - 55)     (* A..F *)
  else None.

(** [common.Hex2Bytes]: two hexadecimal digits per byte. *)
Fixpoint Hex2Bytes (s : string) : bytes :=
  match s with
  | String hi (String lo rest) =>
      match hexDigit hi, hexDigit lo with
      | Some h, Some l => (16 * h + l) :: Hex2Bytes rest
      | _, _ => []
      end
  | _ => []
  end.

(** The bytes of a text made of ASCII characters. *)
Fixpoint bytesOfString (s : string) : bytes :=
  match s with
  | EmptyString => []
  | String c rest => Z.of_N (N_of_ascii c) :: bytesOfString rest
  end.

(** [bigEndian width v]: the low [width] bytes of [v], most significant
    first ([binary.BigEndian], [big.Int.Bytes] left-padded). *)
Fixpoint bigEndian (width : nat) (v : Z) : bytes :=
  match width with
  | O => []
  | S w => Z.land (Z.shiftr v (8 * Z.of_nat w)) 255 :: bigEndian w v
  end.

(** The number a byte string spells, most significant byte first. *)
Definition fromBigEndian (bs : bytes) : Z :=
  fold_left (fun acc b => 256 * acc + b) bs 0.

(** The same, least significant byte first. *)
Definition fromLittleEndian (bs : bytes) : Z :=
  fold_right (fun b acc => b + 256 * acc) 0 bs.

Fixpoint littleEndian (width : nat) (v : Z) : bytes :=
  match width with
  | O => []
  | S w => Z.land v 255 :: littleEndian w (Z.shiftr v 8)
  end.

(** [bytes.Equal]: same length and the same byte at every position. *)
Fixpoint bytesEqual (a b : bytes) : bool :=
  match a, b with
  | [], [] => true
  | x :: a', y :: b' => (x =? y) && bytesEqual a' b'
  | _, _ => false
  end.

(** [common.Address] is a [[20]byte]; [common.Address{}] is all zeroes. *)
Abbreviation Address := (list Z).
Definition AddressLength : nat := 20.
Definition zeroAddress : Address := repeat 0 AddressLength.

(** [has0xPrefix]: the text starts with [0x] or [0X]. *)
Definition has0xPrefix (s : string) : bool :=
  match s with
  | String a (String b _) =>
      Ascii.eqb a "0"%char && (Ascii.eqb b "x"%char || Ascii.eqb b "X"%char)
  | _ => false
  end.

(** [common.FromHex]: the prefix is dropped if there is one, and a text with
    an odd number of digits gets a leading zero. *)
Definition FromHex (s : string) : bytes :=
  let s := if has0xPrefix s
           then match s with
                | String _ (String _ digits) => digits
                | _ => s
                end
           else s in
  let s := if Nat.odd (String.length s) then String "0"%char s else s in
  Hex2Bytes s.

(** [common.BytesToAddress]: the last 20 bytes if there are more, and
    zeroes on the left if there are fewer. *)
Definition BytesToAddress (b : bytes) : Address :=
  let b := drop (length b - AddressLength) b in
  repeat 0 (AddressLength - length b) ++ b.

(** [common.HexToAddress] *)
Definition HexToAddress (s : string) : Address := BytesToAddress (FromHex s).

(** Cutting a byte string in blocks of [size] bytes; [fuel] bounds the
    number of blocks. *)
Fixpoint blocks (fuel : nat) (size : nat) (bs : bytes) : list bytes :=
  match fuel with
  | O => []
  | S fuel' =>
      match bs with
      | [] => []
      | _ => take size bs :: blocks fuel' size (drop size bs)
      end
  end.

(** ** Keccak-256 *)

(** [crypto.Keccak256] belongs to the go-ethereum library.  It is written
    out here as the Keccak sponge with rate 1088 and the original padding,
    on a state of 25 lanes of 64 bits, lane (x, y) at index x + 5 y. *)
Module Keccak.

Definition w64 : Z := 2 ^ 64.

Definition rol64 (x n : Z) : Z :=
  Z.lor (Z.shiftl x n mod w64) (Z.shiftr x (64 - n)).

Definition not64 (x : Z) : Z := Z.lxor x (w64 - 1).

Definition lane (A : list Z) (x y : nat) : Z := nth (x mod 5 + 5 * (y mod 5)) A 0.

Definition roundConstants : list Z :=
  [ 0x0000000000000001; 0x0000000000008082; 0x800000000000808A;
    0x8000000080008000; 0x000000000000808B; 0x0000000080000001;
    0x8000000080008081; 0x8000000000008009; 0x000000000000008A;
    0x0000000000000088; 0x0000000080008009; 0x000000008000000A;
    0x000000008000808B; 0x800000000000008B; 0x8000000000008089;
    0x8000000000008003; 0x8000000000008002; 0x8000000000000080;
    0x000000000000800A; 0x800000008000000A; 0x8000000080008081;
    0x8000000000008080; 0x0000000080000001; 0x8000000080008008 ].

(** Rotation offsets, at index x + 5 y. *)
Definition rotationOffsets : list Z :=
  [  0;  1; 62; 28; 27;
    36; 44;  6; 55; 20;
     3; 10; 43; 25; 39;
    41; 45; 15; 21;  8;
    18;  2; 61; 56; 14 ].

Definition positions : list (nat * nat) :=
  flat_map (fun y => map (fun x => (x, y)) (seq 0 5)) (seq 0 5).

Definition theta (A : list Z) : list Z :=
  let C := fun x =>
    Z.lxor (lane A x 0) (Z.lxor (lane A x 1) (Z.lxor (lane A x 2)
      (Z.lxor (lane A x 3) (lane A x 4)))) in
  let D := fun x => Z.lxor (C ((x + 4) mod 5)%nat) (rol64 (C ((x + 1) mod 5)%nat) 1) in
  map (fun '(x, y) => Z.lxor (lane A x y) (D x)) positions.

(** rho and pi: lane (x, y) is rotated and moved to (y, 2 x + 3 y); read
    backwards, the lane at (X, Y) comes from (X + 3 Y, X). *)
Definition rhoPi (A : list Z) : list Z :=
  map (fun '(X, Y) =>
         let x := ((X + 3 * Y) mod 5)%nat in
         let y := X in
         rol64 (lane A x y) (nth (x + 5 * y) rotationOffsets 0))
      positions.

Definition chi (B : list Z) : list Z :=
  map (fun '(x, y) =>
         Z.lxor (lane B x y)
                (Z.land (not64 (lane B (x + 1) y)) (lane B (x + 2) y)))
      positions.

Definition iota (rc : Z) (A : list Z) : list Z :=
  match A with
  | [] => []
  | a :: rest => Z.lxor a rc :: rest
  end.

Definition round (A : list Z) (rc : Z) : list Z := iota rc (chi (rhoPi (theta A))).

Definition keccakF (A : list Z) : list Z := fold_left round roundConstants A.

Definition rate : nat := 136.

(** Padding: a byte 0x01, zeroes, and the top bit of the last byte set. *)
Definition pad (msg : bytes) : bytes :=
  let missing := (rate - length msg mod rate)%nat in
  match missing with
  | 1%nat => msg ++ [0x81]
  | _ => msg ++ [0x01] ++ repeat 0 (missing - 2) ++ [0x80]
  end.

Definition absorbBlock (A : list Z) (block : bytes) : list Z :=
  let lanes := map fromLittleEndian (blocks (rate / 8) 8 block) in
  keccakF (map (fun '(i, a) => Z.lxor a (nth i lanes 0)) (combine (seq 0 25) A)).

Definition Keccak256 (msg : bytes) : bytes :=
  let padded := pad msg in
  let A := fold_left absorbBlock (blocks (length padded) rate padded) (repeat 0 25%nat) in
  flat_map (littleEndian 8) (take 4 A).

End Keccak.

(** ** SHA-256 and HMAC *)

(** The signing routine of the go-ethereum [crypto] package draws its nonce
    from HMAC-SHA256.  SHA-256 is written out on 32-bit words kept as
    numbers. *)
Module Sha256.

Definition w32 : Z := 2 ^ 32.

Definition add32 (a b : Z) : Z := (a + b) mod w32.

Definition rotr (n x : Z) : Z :=
  Z.lor (Z.shiftr x n) (Z.shiftl x (32 - n) mod w32).

Definition not32 (x : Z) : Z := Z.lxor x (w32 - 1).

Definition Ch (x y z : Z) : Z := Z.lxor (Z.land x y) (Z.land (not32 x) z).
Definition Maj (x y z : Z) : Z :=
  Z.lxor (Z.land x y) (Z.lxor (Z.land x z) (Z.land y z)).
Definition bigSigma0 (x : Z) : Z := Z.lxor (rotr 2 x) (Z.lxor (rotr 13 x) (rotr 22 x)).
Definition bigSigma1 (x : Z) : Z := Z.lxor (rotr 6 x) (Z.lxor (rotr 11 x) (rotr 25 x)).
Definition smallSigma0 (x : Z) : Z := Z.lxor (rotr 7 x) (Z.lxor (rotr 18 x) (Z.shiftr x 3)).
Definition smallSigma1 (x : Z) : Z := Z.lxor (rotr 17 x) (Z.lxor (rotr 19 x) (Z.shiftr x 10)).

(** The 64 round constants, 4 bytes each. *)
Definition roundKeys : list Z :=
  map fromBigEndian (blocks 64 4 (Hex2Bytes (
    "428a2f9871374491b5c0fbcfe9b5dba53956c25b59f111f1923f82a4ab1c5ed5" ++
    "d807aa9812835b01243185be550c7dc372be5d7480deb1fe9bdc06a7c19bf174" ++
    "e49b69c1efbe47860fc19dc6240ca1cc2de92c6f4a7484aa5cb0a9dc76f988da" ++
    "983e5152a831c66db00327c8bf597fc7c6e00bf3d5a7914706ca635114292967" ++
    "27b70a852e1b21384d2c6dfc53380d13650a7354766a0abb81c2c92e92722c85" ++
    "a2bfe8a1a81a664bc24b8b70c76c51a3d192e819d6990624f40e3585106aa070" ++
    "19a4c1161e376c082748774c34b0bcb5391c0cb34ed8aa4a5b9cca4f682e6ff3" ++
    "748f82ee78a5636f84c878148cc7020890befffaa4506cebbef9a3f7c67178f2")%string)).

Definition initialHash : list Z :=
  map fromBigEndian (blocks 8 4 (Hex2Bytes
    "6a09e667bb67ae853c6ef372a54ff53a510e527f9b05688c1f83d9ab5be0cd19")).

(** The message schedule, most recent word first: [extend n ws] adds [n]
    words to the 16 words of the block. *)
Fixpoint extend (n : nat) (recent : list Z) : list Z :=
  match n with
  | O => recent
  | S n' =>
      let word :=
        add32 (add32 (smallSigma1 (nth 1 recent 0)) (nth 6 recent 0))
              (add32 (smallSigma0 (nth 14 recent 0)) (nth 15 recent 0)) in
      extend n' (word :: recent)
  end.

Definition schedule (block : bytes) : list Z :=
  rev (extend 48 (rev (map fromBigEndian (blocks 16 4 block)))).

Definition step (state : list Z) (kw : Z * Z) : list Z :=
  match state with
  | [a; b; c; d; e; f; g; h] =>
      let t1 := add32 (add32 (add32 h (bigSigma1 e)) (Ch e f g))
                      (add32 (fst kw) (snd kw)) in
      let t2 := add32 (bigSigma0 a) (Maj a b c) in
      [add32 t1 t2; a; b; c; add32 d t1; e; f; g]
  | _ => state
  end.

Definition compress (hash : list Z) (block : bytes) : list Z :=
  let final := fold_left step (combine roundKeys (schedule block)) hash in
  map (fun '(x, y) => add32 x y) (combine hash final).

(** Padding: a byte 0x80, zeroes, and the length in bits on 8 bytes. *)
Definition pad (msg : bytes) : bytes :=
  let len := length msg in
  let zeroes := ((119 - len mod 64) mod 64)%nat in
  msg ++ [0x80] ++ repeat 0 zeroes ++ bigEndian 8 (8 * Z.of_nat len).

Definition SHA256 (msg : bytes) : bytes :=
  let padded := pad msg in
  flat_map (bigEndian 4)
           (fold_left compress (blocks (length padded) 64 padded) initialHash).

(** HMAC with SHA-256. *)
Definition HMAC (key msg : bytes) : bytes :=
  let key := if (64 <? length key)%nat then SHA256 key else key in
  let key := key ++ repeat 0 (64 - length key) in
  SHA256 (map (Z.lxor 0x5c) key ++ SHA256 (map (Z.lxor 0x36) key ++ msg)).

End Sha256.

(** ** Public keys and addresses *)

(** The curve secp256k1 of the go-ethereum [crypto] package: y^2 = x^3 + 7
    over the field of [fieldPrime] elements, points in Jacobian
    coordinates (X, Y, Z), the point at infinity having Z = 0.  Field
    elements are big integers, as they are [big.Int] in Go. *)
Module Secp256k1.
Local Open Scope bigZ_scope.

Definition fieldPrime : bigZ := 2 ^ 256 - 2 ^ 32 - 977.
Definition groupOrder : bigZ :=
  BigZ.of_Z 0xFFFFFFFFFFFFFFFFFFFFFFFFFFFFFFFEBAAEDCE6AF48A03BBFD25E8CD0364141.
Definition Gx : bigZ :=
  BigZ.of_Z 0x79BE667EF9DCBBAC55A06295CE870B07029BFCDB2DCE28D959F2815B16F81798.
Definition Gy : bigZ :=
  BigZ.of_Z 0x483ADA7726A3C4655DA4FBFC0E1108A8FD17B448A68554199C47D08FFB10D4B8.

Record point : Type := mkPoint { pX : bigZ; pY : bigZ; pZ : bigZ }.

Definition infinity : point := mkPoint 1 1 0.
Definition generator : point := mkPoint Gx Gy 1.

Definition fmul (a b : bigZ) : bigZ := (a * b) mod fieldPrime.
Definition fsub (a b : bigZ) : bigZ := (a - b) mod fieldPrime.

(** [powmod b e m] is b^e modulo m, by squaring. *)
Fixpoint powmod (b : bigZ) (e : positive) (m : bigZ) : bigZ :=
  match e with
  | xH => b mod m
  | xO e' => let r := powmod b e' m in (r * r) mod m
  | xI e' => let r := powmod b e' m in ((r * r) mod m * b) mod m
  end.

(** The inverse in a prime field, by Fermat's little theorem. *)
Definition inverse (a m : bigZ) : bigZ :=
  match (BigZ.to_Z m - 2)%Z with
  | Zpos e => powmod a e m
  | _ => 0
  end.

Definition double (P : point) : point :=
  let '(mkPoint X Y Z) := P in
  if (Z =? 0) || (Y =? 0) then infinity
  else
    let YY := fmul Y Y in
    let S := fmul 4 (fmul X YY) in
    let M := fmul 3 (fmul X X) in
    let X' := fsub (fmul M M) (fmul 2 S) in
    let Y' := fsub (fmul M (fsub S X')) (fmul 8 (fmul YY YY)) in
    mkPoint X' Y' (fmul 2 (fmul Y Z)).

Definition add (P Q : point) : point :=
  if pZ P =? 0 then Q
  else if pZ Q =? 0 then P
  else
    let Z1Z1 := fmul (pZ P) (pZ P) in
    let Z2Z2 := fmul (pZ Q) (pZ Q) in
    let U1 := fmul (pX P) Z2Z2 in
    let U2 := fmul (pX Q) Z1Z1 in
    let S1 := fmul (pY P) (fmul (pZ Q) Z2Z2) in
    let S2 := fmul (pY Q) (fmul (pZ P) Z1Z1) in
    if U1 =? U2 then
      if S1 =? S2 then double P else infinity
    else
      let H := fsub U2 U1 in
      let R := fsub S2 S1 in
      let HH := fmul H H in
      let HHH := fmul H HH in
      let V := fmul U1 HH in
      let X3 := fsub (fsub (fmul R R) HHH) (fmul 2 V) in
      let Y3 := fsub (fmul R (fsub V X3)) (fmul S1 HHH) in
      mkPoint X3 Y3 (fmul H (fmul (pZ P) (pZ Q))).

Fixpoint mulPositive (k : positive) (P : point) : point :=
  match k with
  | xH => P
  | xO k' => double (mulPositive k' P)
  | xI k' => add (double (mulPositive k' P)) P
  end.

Definition mul (k : Z) (P : point) : point :=
  match k with
  | Zpos k' => mulPositive k' P
  | _ => infinity
  end.

(** Affine coordinates of a point that is not at infinity. *)
Definition affine (P : point) : option (Z * Z) :=
  if pZ P =? 0 then None
  else
    let zi := inverse (pZ P) fieldPrime in
    let zi2 := fmul zi zi in
    Some (BigZ.to_Z (fmul (pX P) zi2), BigZ.to_Z (fmul (pY P) (fmul zi zi2))).

(** [crypto.HexToECDSA] followed by [.PublicKey]: the point d G. *)
Definition publicKey (d : Z) : option (Z * Z) := affine (mul d generator).

(** [crypto.PubkeyToAddress]: the last 20 bytes of the Keccak-256 digest of
    the two coordinates, 32 bytes each. *)
Definition PubkeyToAddress (pub : Z * Z) : Address :=
  drop 12 (Keccak.Keccak256 (bigEndian 32 (fst pub) ++ bigEndian 32 (snd pub))).

Definition addressOfKey (d : Z) : Address :=
  match publicKey d with
  | Some pub => PubkeyToAddress pub
  | None => zeroAddress
  end.

(** *** Recoverable signatures *)

Definition scalarMul (a b : bigZ) : bigZ := (a * b) mod groupOrder.

Definition isOdd (a : bigZ) : bool := negb (a mod 2 =? 0).

(** The point of abscissa [x] whose ordinate has the given parity, if the
    curve has one: a square root of x^3 + 7 is its power (p + 1) / 4. *)
Definition liftX (x : bigZ) (odd : bool) : option point :=
  let y2 := (fmul x (fmul x x) + 7) mod fieldPrime in
  match BigZ.to_Z ((fieldPrime + 1) / 4) with
  | Zpos e =>
      let y := powmod y2 e fieldPrime in
      if fmul y y =? y2
      then Some (mkPoint x (if Bool.eqb (isOdd y) odd then y else fsub fieldPrime y) 1)
      else None
  | _ => None
  end.

(** [crypto.Ecrecover] / [crypto.SigToPub]: the public key a 65-byte
    signature (r, s, recovery identifier) designates for a 32-byte digest. *)
Definition recover (hash sig : bytes) : option (Z * Z) :=
  if negb (length sig =? 65)%nat || negb (length hash =? 32)%nat then None
  else
    let r := BigZ.of_Z (fromBigEndian (take 32 sig)) in
    let s := BigZ.of_Z (fromBigEndian (take 32 (drop 32 sig))) in
    let recid := nth 64 sig 0%Z in
    if (4 <=? recid)%Z || (r =? 0) || (s =? 0)
       || (groupOrder <=? r) || (groupOrder <=? s) then None
    else
      let x := if Z.testbit recid 1 then r + groupOrder else r in
      if fieldPrime <=? x then None
      else
        match liftX x (Z.testbit recid 0) with
        | None => None
        | Some R =>
            let z := BigZ.of_Z (fromBigEndian hash) mod groupOrder in
            let ri := inverse r groupOrder in
            let u1 := scalarMul ((groupOrder - z) mod groupOrder) ri in
            let u2 := scalarMul s ri in
            affine (add (mul (BigZ.to_Z u2) R) (mul (BigZ.to_Z u1) generator))
        end.

(** The deterministic nonce of RFC 6979 with HMAC-SHA256, drawn from the
    key and the digest; [tries] bounds the candidates looked at. *)
Fixpoint nonceFrom (tries : nat) (K V : bytes) : option Z :=
  match tries with
  | O => None
  | S tries' =>
      let V := Sha256.HMAC K V in
      let k := fromBigEndian V in
      if ((0 <? k) && (k <? BigZ.to_Z groupOrder))%Z then Some k
      else
        let K := Sha256.HMAC K (V ++ [0%Z]) in
        nonceFrom tries' K (Sha256.HMAC K V)
  end.

Definition nonce (key : Z) (hash : bytes) : option Z :=
  let keydata := bigEndian 32 key ++ hash in
  let V := repeat 1%Z 32 in
  let K := repeat 0%Z 32 in
  let K := Sha256.HMAC K (V ++ [0%Z] ++ keydata) in
  let V := Sha256.HMAC K V in
  let K := Sha256.HMAC K (V ++ [1%Z] ++ keydata) in
  let V := Sha256.HMAC K V in
  nonceFrom 16 K V.

(** [crypto.Sign]: r, s and the recovery identifier, 65 bytes, s in the
    lower half of the group order. *)
Definition sign (hash : bytes) (key : Z) : option bytes :=
  match nonce key hash with
  | None => None
  | Some k =>
      match affine (mul k generator) with
      | None => None
      | Some (x, y) =>
          let r := BigZ.of_Z x mod groupOrder in
          let z := BigZ.of_Z (fromBigEndian hash) mod groupOrder in
          let s := scalarMul (inverse (BigZ.of_Z k) groupOrder)
                             ((z + scalarMul r (BigZ.of_Z key)) mod groupOrder) in
          if (r =? 0) || (s =? 0) then None
          else
            let overflow := (BigZ.to_Z groupOrder <=? x)%Z in
            let high := groupOrder <? 2 * s in
            let s := if high then groupOrder - s else s in
            let recid := ((if overflow then 2 else 0)
                          + (if xorb (Z.odd y) high then 1 else 0))%Z in
            Some (bigEndian 32 (BigZ.to_Z r) ++ bigEndian 32 (BigZ.to_Z s) ++ [recid])
      end
  end.

End Secp256k1.

(** ** Cheques *)

Module Cheque.

(** The parameters of a cheque and the cheque itself, with the field names
    [newTestCheque] uses; serial, amount and timeout are [uint64]. *)
Record ChequeParams : Type := mkChequeParams {
  Contract : Address;
  Serial : Z;
  Amount : Z;
  Timeout : Z;
  Beneficiary : Address
}.

Record Cheque : Type := mkCheque {
  Params : ChequeParams;
  Sig : bytes
}.

(** The keys and addresses of the [var] block of the swap tests. *)
Definition ownerKey : Z :=
  fromBigEndian (Hex2Bytes "634fb5a872396d9693e5c9f9d7233cfa93f395c093371017ff44aa9ae6564cdd").
Definition ownerAddress : Address := Secp256k1.addressOfKey ownerKey.
Definition beneficiaryKey : Z :=
  fromBigEndian (Hex2Bytes "6f05b0a29723ca69b1fc65d11752cee22c200cf3d2938e670547f7ae525be112").
Definition beneficiaryAddress : Address := Secp256k1.addressOfKey beneficiaryKey.
Definition chequeSig : bytes :=
  Hex2Bytes "d985613f7d8bfcf0f96f4bb00a21111beb9a675477f47e4d9b79c89f880cf99c5ab9ef4cdec7186debc51b898fe4d062a835de61fba6db390316db13d50d23941c".

(** [newTestCheque()] *)
Definition newTestCheque : Cheque :=
  let contract := HexToAddress "0x4405415b2B8c9F9aA83E151637B8378dD3bcfEDD" in
  let cashInDelay := 10 in
  {| Params := {| Contract := contract;
                  Serial := 1;
                  Amount := 42;
                  Timeout := cashInDelay;
                  Beneficiary := beneficiaryAddress |};
     Sig := [] |}.

(** The bytes [TestEncodeCheque] expects for [newTestCheque()]. *)
Definition expectedEncoding : bytes :=
  Hex2Bytes "4405415b2b8c9f9aa83e151637b8378dd3bcfeddb8d424e9662fe0837fb1d728f1ac97cebb1085fe0000000000000000000000000000000000000000000000000000000000000001000000000000000000000000000000000000000000000000000000000000002a000000000000000000000000000000000000000000000000000000000000000a".

(** The digest [TestSigHashCheque] expects for [newTestCheque()]. *)
Definition expectedSigHash : bytes :=
  Hex2Bytes "e431e83bed105cb66d9aa5878cb010bc21365d2e328ce7c36671f0cbd44070ae".

(** The layout in the words of the specification: contract address, serial,
    amount and timeout as 32-byte big-endian numbers, beneficiary address. *)
Definition encodeAsSpecified (cheque : Cheque) : bytes :=
  let p := Params cheque in
  Contract p ++ bigEndian 32 (Serial p) ++ bigEndian 32 (Amount p)
    ++ bigEndian 32 (Timeout p) ++ Beneficiary p.

(** Modelled from the spec: [Swap.encodeCheque] is not among the sources,
    only [TestEncodeCheque] is.  The fields and their widths are those of the
    specification (two addresses of 20 bytes; serial, amount and timeout as
    32-byte big-endian numbers, no length prefix); the order of the fields is
    the one the expected bytes of [TestEncodeCheque] show, where the
    beneficiary address comes second. *)
Definition encodeCheque (cheque : Cheque) : bytes :=
  let p := Params cheque in
  Contract p ++ Beneficiary p ++ bigEndian 32 (Serial p)
    ++ bigEndian 32 (Amount p) ++ bigEndian 32 (Timeout p).

(** The envelope of a signed message: the byte 0x19, the text
    "Ethereum Signed Message:", a line feed and the length in decimal. *)
Definition signedMessagePrefix32 : bytes :=
  [0x19] ++ bytesOfString "Ethereum Signed Message:" ++ [0x0a] ++ bytesOfString "32".

(** Modelled from the spec: [Swap.sigHashCheque] is not among the sources,
    only [TestSigHashCheque] is.  The digest is a Keccak-256 digest of
    [encodeCheque], as the specification says; the digest that
    [TestSigHashCheque] expects is the one of the signed-message envelope
    around the Keccak-256 digest of the encoding, which is what is
    written here. *)
Definition sigHashCheque (cheque : Cheque) : bytes :=
  let input := Keccak.Keccak256 (encodeCheque cheque) in
  Keccak.Keccak256 (signedMessagePrefix32 ++ input).

(** The digest in the words of the specification: Keccak-256 of the
    encoding. *)
Definition sigHashAsSpecified (cheque : Cheque) : bytes :=
  Keccak.Keccak256 (encodeCheque cheque).

(** Adding to the last byte of a signature, as a Go [byte]. *)
Definition addToLast (delta : Z) (sig : bytes) : bytes :=
  match rev sig with
  | [] => []
  | v :: rest => rev rest ++ [(v + delta) mod 256]
  end.

(** Modelled from the spec: [Swap.signContent] is not among the sources,
    only [TestSignContent] is.  It signs [sigHashCheque] with the key of the
    owner, in the recoverable ECDSA scheme of secp256k1, and gives the 65
    bytes r, s and recovery identifier; the identifier is counted from 27,
    as the last byte of [chequeSig] shows. *)
Definition signContent (cheque : Cheque) (privateKey : Z) : Result bytes :=
  match Secp256k1.sign (sigHashCheque cheque) privateKey with
  | Some sig => Ok (addToLast 27 sig)
  | None => Err ErrInvalidChequeSignature
  end.

(** Modelled from the spec: [Swap.verifyChequeSig] is not among the
    sources, only its tests are.  It recovers the address of the signer from
    [sigHashCheque] and the signature of the cheque, and fails with the
    invalid-signature error when the recovery fails or the address recovered
    is not the expected signer. *)
Definition verifyChequeSig (cheque : Cheque) (expectedSigner : Address)
    : option error :=
  match Secp256k1.recover (sigHashCheque cheque) (addToLast (-27) (Sig cheque)) with
  | None => Some ErrInvalidChequeSignature
  | Some pub =>
      if bytesEqual (Secp256k1.PubkeyToAddress pub) expectedSigner
      then None
      else Some ErrInvalidChequeSignature
  end.

Definition withSig (cheque : Cheque) (sig : bytes) : Cheque :=
  {| Params := Params cheque; Sig := sig |}.

(** [invalidSig[27] += 2] *)
Definition bumpByte (i : nat) (delta : Z) (sig : bytes) : bytes :=
  match sig !! i with
  | Some b => <[i := (b + delta) mod 256]> sig
  | None => sig
  end.

(** A cheque whose fields have the widths of their Go types. *)
Definition wellFormed (cheque : Cheque) : Prop :=
  let p := Params cheque in
  length (Contract p) = AddressLength /\ length (Beneficiary p) = AddressLength /\
  0 <= Serial p < 2 ^ 64 /\ 0 <= Amount p < 2 ^ 64 /\ 0 <= Timeout p < 2 ^ 64.

End Cheque.

(** ** The bookings oracle of the swap tests *)

Module Ledger.

(** [type booking struct { amount int64; peer *protocols.Peer }]: the peer is
    kept by its identifier, the only thing the accounting reads from it. *)
Record booking : Type := mkBooking { amount : Z; peer : ID }.

(** Reading a Go map at a key that is absent yields the zero value. *)
Definition balanceOf (balances : gmap N Z) (peerID : ID) : Z :=
  default 0 (balances !! peerID).

(** The body of the loop of [calculateExpectedBalances]. *)
Definition bookingStep (disconnectThreshold : Z)
    (expectedBalances : gmap N Z) (b : booking) : gmap N Z :=
  let peerID := peer b in
  let peerBalance := balanceOf expectedBalances peerID in
  (* balance is not expected to be affected once past the disconnect threshold *)
  let peerBalance :=
    if peerBalance <? disconnectThreshold
    then add64 peerBalance (amount b)
    else peerBalance in
  <[peerID := peerBalance]> expectedBalances.

(** [calculateExpectedBalances(swap, bookings)]: the balances that
    [verifyBookings] requires [swap.balances] to be equal to after
    [swap.Add] was called for each booking in turn. *)
Definition calculateExpectedBalances (disconnectThreshold : Z)
    (bookings : list booking) : gmap N Z :=
  fold_left (bookingStep disconnectThreshold) bookings ∅.

(** [generateBookings(amount, quantity, peer)] *)
Definition generateBookings (amt : Z) (quantity : nat) (p : ID) : list booking :=
  repeat (mkBooking amt p) quantity.

(** The amounts booked for one peer, in the order of the bookings. *)
Definition amountsFor (p : ID) (bookings : list booking) : list Z :=
  map amount (filter (fun b => peer b = p) bookings).

(** One accounting step seen from a single peer. *)
Definition clampStep (disconnectThreshold : Z) (balance a : Z) : Z :=
  if balance <? disconnectThreshold then add64 balance a else balance.

(** The [int64] sum of a list of amounts, from a starting balance. *)
Definition sum64 (start : Z) (amts : list Z) : Z := fold_left add64 amts start.

(** The disconnect policy in the words of the specification: once the
    balance has reached the threshold in the debit direction a debit is
    dropped, while a credit is still added.  [reached] says when a balance
    has reached the threshold and [isDebit] which amounts are debits. *)
Definition creditsStillApplyStep (reached : Z -> bool) (isDebit : Z -> bool)
    (balance a : Z) : Z :=
  if reached balance && isDebit a then balance else add64 balance a.

Definition creditsStillApply (reached : Z -> bool) (isDebit : Z -> bool)
    (amts : list Z) : Z :=
  fold_left (creditsStillApplyStep reached isDebit) amts 0.

(** The two senses in which a balance reaches a threshold, and the two signs
    a debit can have. *)
Definition atOrAbove (threshold balance : Z) : bool := threshold <=? balance.
Definition atOrBelow (threshold balance : Z) : bool := balance <=? threshold.
Definition isPositive (a : Z) : bool := 0 <? a.
Definition isNegative (a : Z) : bool := a <? 0.

(** [hasBooking p bookings]: some booking of the list is for peer [p]. *)
Definition hasBooking (p : ID) (bookings : list booking) : bool :=
  existsb (fun b => N.eqb (peer b) p) bookings.

(** Modelled from the spec: [Swap.GetPeerBalance] is not among the sources,
    only [TestGetPeerBalance] is.  It returns the balance stored for the
    peer and fails with the error whose text is "ErrorNotFound" when the
    ledger has no entry for the peer; an absent entry is not a zero balance. *)
Definition GetPeerBalance (balances : gmap N Z) (peerID : ID) : Result Z :=
  match balances !! peerID with
  | Some b => Ok b
  | None => Err ErrorNotFound
  end.

End Ledger.

(** ** The blockchain backend and the contract check *)

Module Protocol.

(** The blockchain-backend collaborator, as far as the handshake uses it: the
    bytecode deployed at an address and the beneficiary a settlement
    contract has registered.  Either read can fail. *)
Record Backend : Type := mkBackend {
  CodeAt : Address -> Result bytes;
  contractOwner : Address -> Result Address
}.

(** [type HandshakeMsg struct { ContractAddress common.Address }] *)
Record HandshakeMsg : Type := mkHandshakeMsg { ContractAddress : Address }.

(** What a handler receives as [interface{}]: one of the three messages of
    [Spec.Messages], or a value of another type. *)
Inductive Msg : Type :=
  | IsHandshakeMsg (m : HandshakeMsg)       (* *HandshakeMsg *)
  | IsEmitChequeMsg (c : Cheque.Cheque)     (* *EmitChequeMsg *)
  | IsErrorMsg                              (* *ErrorMsg *)
  | IsOther (typeName : string).

(** The type assertion of [msg] to a pointer to [HandshakeMsg], in its
    two-result form. *)
Definition asHandshakeMsg (msg : Msg) : option HandshakeMsg :=
  match msg with
  | IsHandshakeMsg m => Some m
  | _ => None
  end.

(** A swap peer, as [NewPeer(protoPeer, s, backend, beneficiary,
    contractAddress)] builds it; [peerID] is [p.ID()]. *)
Record Peer : Type := mkPeer {
  peerID : ID;
  beneficiary : Address;
  contractAddress : Address
}.

(** The swap service: [s.balances], [s.peers], [s.backend] and
    [s.owner.Contract]. *)
Record Swap : Type := mkSwap {
  balances : gmap N Z;
  peers : gmap N Peer;
  backend : Backend;
  ownerContract : Address
}.

Definition withPeers (s : Swap) (ps : gmap N Peer) : Swap :=
  {| balances := balances s; peers := ps; backend := backend s;
     ownerContract := ownerContract s |}.

(** [delete(s.peers, p.ID())] *)
Definition removePeer (s : Swap) (p : Peer) : Swap :=
  withPeers s (delete (peerID p) (peers s)).

(** [s.peers[p.ID()] = p] *)
Definition addPeer (s : Swap) (p : Peer) : Swap :=
  withPeers s (<[peerID p := p]> (peers s)).

(** [return s.peers[id]]; a missing key gives the nil pointer. *)
Definition getPeer (s : Swap) (id : ID) : option Peer := peers s !! id.

(** How a Go function ends: it returns its error result or it panics. *)
Inductive Outcome : Type :=
  | Returned (err : option error)
  | Panicked.

(** What one side of a connection observes from the transport during the
    handshake: the result of sending its own handshake message and the
    message received from the remote side, if any. *)
Record Exchange : Type := mkExchange {
  sent : option error;
  received : Result Msg
}.

(** The account of one call of [run]: the service when [run] is left, how
    [run] ended, and the service as it was when the session became active,
    if it did. *)
Record RunResult : Type := mkRunResult {
  final : Swap;
  outcome : Outcome;
  active : option Swap
}.

Section WithCollaborators.

(** [contract.ContractDeployedCode], the bytecode of the settlement
    contract, decoded. *)
Variable referenceCode : bytes.

(** How [protocols.Peer.Handshake] reports an error of the exchange or of
    the verification callback to its caller. *)
Variable handshakeError : error -> error.

(** [s.logBalance(protoPeer)] and the message loop
    [swapPeer.Run(swapPeer.handleMsg)]: any effect on the service is
    allowed, and the loop ends in any way. *)
Variable logBalance : Swap -> ID -> Swap.
Variable messageLoop : Swap -> Peer -> Swap * Outcome.

(** Modelled from the spec: [Swap.verifyContract] is not among the sources,
    only its tests and its call in [verifyHandshake] are.  It fetches the
    bytecode deployed at the address from the backend and compares it byte
    for byte with the expected bytecode of the settlement contract; a
    difference is [ErrNotASwapContract], a failed read is reported as it
    is. *)
Definition verifyContract (b : Backend) (address : Address) : option error :=
  match CodeAt b address with
  | Err err => Some err
  | Ok code =>
      if bytesEqual code referenceCode then None else Some ErrNotASwapContract
  end.

(** Modelled from the spec: [Swap.getContractOwner] is not among the
    sources.  It reads the beneficiary registered by the settlement
    contract at the address, through the backend. *)
Definition getContractOwner (s : Swap) (address : Address) : Result Address :=
  contractOwner (backend s) address.

(** [verifyHandshake] verifies the chequebook address transmitted in the
    swap handshake. *)
Definition verifyHandshake (s : Swap) (msg : Msg) : option error :=
  match asHandshakeMsg msg with
  | None => Some ErrEmptyAddressInSignature                      (* !ok *)
  | Some handshake =>
      if bool_decide (ContractAddress handshake = zeroAddress)
      then Some ErrEmptyAddressInSignature
      else verifyContract (backend s) (ContractAddress handshake)
  end.

(** Modelled from the spec: [protocols.Peer.Handshake] is not among the
    sources.  The local handshake message is sent and the remote one is
    awaited; the callback is run on the message received; the message is
    handed back when nothing failed. *)
Definition Handshake (x : Exchange) (hs : Msg) (verify : Msg -> option error)
    : Result Msg :=
  match sent x with
  | Some err => Err (handshakeError err)
  | None =>
      match received x with
      | Err err => Err (handshakeError err)
      | Ok rhs =>
          match verify rhs with
          | Some err => Err (handshakeError err)
          | None => Ok rhs
          end
      end
  end.

(** [run] is the actual swap protocol run method.  The deferred
    [s.removePeer(swapPeer)] is applied to the service as the message loop
    leaves it, whether the loop returned or panicked. *)
Definition run (s : Swap) (p : ID) (x : Exchange) : RunResult :=
  match Handshake x (IsHandshakeMsg {| ContractAddress := ownerContract s |})
                  (verifyHandshake s) with
  | Err err => {| final := s; outcome := Returned (Some err); active := None |}
  | Ok answer =>
      match asHandshakeMsg answer with
      | None => {| final := s; outcome := Panicked; active := None |}
      | Some remote =>
          match getContractOwner s (ContractAddress remote) with
          | Err err =>
              {| final := s; outcome := Returned (Some err); active := None |}
          | Ok beneficiary =>
              let swapPeer := mkPeer p beneficiary (ContractAddress remote) in
              let s1 := addPeer s swapPeer in
              let s2 := logBalance s1 p in
              let '(s3, exit) := messageLoop s2 swapPeer in
              {| final := removePeer s3 swapPeer;
                 outcome := exit;
                 active := Some s1 |}
          end
      end
  end.

End WithCollaborators.

End Protocol.

(** ** The durable state store *)

Module StateStore.

(** Modelled from the spec: the store of the [state] package is not among
    the sources, only [TestRestoreBalanceFromStateStore] is.  It is a
    key-value store kept in a directory of the disk, keyed by the text of a
    peer identifier, with signed 64-bit balances as values; it offers
    [Put], [Get] and [Close], and writes are synchronous. *)

(** What the disk holds: for each directory, the records written there. *)
Abbreviation Disk := (gmap string (gmap string Z)).

(** An open or closed store on a directory. *)
Record DBStore : Type := mkDBStore {
  dir : string;
  closed : bool
}.

(** Modelled from the spec: [state.NewDBStore(dir)] opens the store kept in
    a directory, creating it when the directory is new. *)
Definition NewDBStore (path : string) (disk : Disk) : DBStore * Disk :=
  let disk' := match disk !! path with
               | Some _ => disk
               | None => <[path := ∅]> disk
               end in
  ({| dir := path; closed := false |}, disk').

(** Modelled from the spec: [Put(key, value)] writes the record through to
    the disk before it returns. *)
Definition Put (st : DBStore) (key : string) (value : Z) (disk : Disk)
    : option error * Disk :=
  if closed st then (Some ErrStoreClosed, disk)
  else (None, <[dir st := <[key := wrap64 value]> (default ∅ (disk !! dir st))]> disk).

(** Modelled from the spec: [Get(key)] reads the record of a key, and fails
    with the not-found error when there is none. *)
Definition Get (st : DBStore) (key : string) (disk : Disk) : Result Z :=
  if closed st then Err ErrStoreClosed
  else match default ∅ (disk !! dir st) !! key with
       | Some v => Ok v
       | None => Err ErrorNotFound
       end.

(** Modelled from the spec: [Close()] releases the store; the disk keeps
    what was written. *)
Definition Close (st : DBStore) : DBStore := {| dir := dir st; closed := true |}.

Definition hexChar (d : Z) : ascii :=
  ascii_of_N (Z.to_N (if d <? 10 then 48 + d else 87 + d)).

(** [enode.ID.String()]: the 64 hexadecimal digits of the identifier. *)
Definition IDString (id : ID) : string :=
  fold_right (fun b s => String (hexChar (b / 16)) (String (hexChar (b mod 16)) s))
             EmptyString (bigEndian 32 (Z.of_N id)).

(** The steps of [TestRestoreBalanceFromStateStore] on a store directory:
    open, put the balance under the peer's key, close, open again, read the
    key. *)
Definition restoreBalance (path : string) (disk : Disk) (id : ID) (balance : Z)
    : Result Z :=
  let '(stateStore, disk1) := NewDBStore path disk in
  let '(_, disk2) := Put stateStore (IDString id) balance disk1 in
  let _ := Close stateStore in
  let '(stateStore2, disk3) := NewDBStore path disk2 in
  Get stateStore2 (IDString id) disk3.

End StateStore.

(** ** A sample service *)

(** A small chain and service on which the protocol is run. *)
Module Sample.
Import Protocol.

Definition code : bytes := Hex2Bytes "608060405234801561001057600080fd5b50".
Definition otherCode : bytes := Hex2Bytes "73000000000000000000000000000000000000000030146080604052600080fd".

Definition deployed : Address := HexToAddress "0x4405415b2B8c9F9aA83E151637B8378dD3bcfEDD".
Definition library : Address := HexToAddress "0x8d3766440f0d7b949a5e32995d09619a7f86e632".
Definition owner : Address := HexToAddress "0xb8d424e9662fe0837fb1d728f1ac97cebb1085fe".

(** A chain with the settlement contract at one address, another contract
    at a second address and no code anywhere else. *)
Definition chain : Backend :=
  {| CodeAt := fun a =>
       if bool_decide (a = deployed) then Ok code
       else if bool_decide (a = library) then Ok otherCode
       else Ok [];
     contractOwner := fun a =>
       if bool_decide (a = deployed) then Ok owner
       else Err (ErrBackend "no contract code at given address") |}.

Definition service : Swap :=
  {| balances := ∅; peers := ∅; backend := chain; ownerContract := library |}.

Definition remotePeer : ID := 7%N.

Definition goodExchange : Exchange :=
  {| sent := None; received := Ok (IsHandshakeMsg {| ContractAddress := deployed |}) |}.

Definition badExchange : Exchange :=
  {| sent := None; received := Ok (IsHandshakeMsg {| ContractAddress := library |}) |}.

(** A message loop that books a debit for the peer and ends on a protocol
    error. *)
Definition loop (s : Swap) (p : Peer) : Swap * Outcome :=
  ({| balances := <[peerID p := -5]> (balances s); peers := peers s;
      backend := backend s; ownerContract := ownerContract s |},
   Returned (Some ErrInvalidChequeSignature)).

Definition quiet (s : Swap) (_ : ID) : Swap := s.

End Sample.

(** ** Sums and slices *)

(** The sum of a list of amounts over the integers, without wrap-around. *)
Definition total (amts : list Z) : Z := fold_right Z.add 0 amts.

(** Go slices: a slice is a window on a backing array that several slices
    can share; the arrays live in a heap. *)
Module Slices.

Record slice : Type := mkSlice {
  array : nat;      (* the backing array *)
  offset : nat;     (* where the window starts in it *)
  len : nat;
  cap : nat
}.

Abbreviation Heap := (gmap nat (list Z)).

(** [s[lo:hi]]: the same backing array; out of bounds it panics. *)
Definition reslice (s : slice) (lo hi : nat) : option slice :=
  if (lo <=? hi)%nat && (hi <=? cap s)%nat
  then Some {| array := array s; offset := offset s + lo;
               len := hi - lo; cap := cap s - lo |}
  else None.

(** [s[:]] is [s[0:len(s)]]. *)
Definition sliceAll (s : slice) : option slice := reslice s 0 (len s).

(** [s[i]]; out of range it panics. *)
Definition index (h : Heap) (s : slice) (i : nat) : option Z :=
  if (i <? len s)%nat
  then a ← h !! array s; a !! (offset s + i)%nat
  else None.

(** [s[i] = v]; out of range it panics. *)
Definition setIndex (h : Heap) (s : slice) (i : nat) (v : Z) : option Heap :=
  if (i <? len s)%nat
  then a ← h !! array s;
       if (offset s + i <? length a)%nat
       then Some (<[array s := <[(offset s + i)%nat := v]> a]> h)
       else None
  else None.

(** The bytes seen through a slice. *)
Definition contents (h : Heap) (s : slice) : option (list Z) :=
  a ← h !! array s;
  if (offset s + len s <=? length a)%nat
  then Some (take (len s) (drop (offset s) a))
  else None.

(** A slice that lies within its backing array. *)
Definition wellPlaced (h : Heap) (s : slice) : Prop :=
  exists a, h !! array s = Some a /\
            (offset s + cap s <= length a)%nat /\ (len s <= cap s)%nat.

(** The statements of [TestVerifyChequeInvalidSignature] that build the
    invalid signature from the package variable [chequeSig]:
    [invalidSig := chequeSig[:]] and [invalidSig[27] += 2].  The result is
    the heap and the slice stored in [expectedCheque.Sig]. *)
Definition invalidSignature (h : Heap) (chequeSig : slice) : option (Heap * slice) :=
  invalidSig ← sliceAll chequeSig;
  b ← index h invalidSig 27;
  h' ← setIndex h invalidSig 27 ((b + 2) mod 256);
  Some (h', invalidSig).

End Slices.

(** ** Byte strings: comparison *)

Lemma bytesEqual_eq (a b : bytes) : bytesEqual a b = true <-> a = b.
Proof.
  revert b. induction a as [|x a IH]; intros [|y b]; cbn; try (split; congruence).
  rewrite andb_true_iff, Z.eqb_eq, IH. split.
  - intros [-> ->]. reflexivity.
  - intros [= -> ->]. done.
Qed.

Lemma bytesEqual_neq (a b : bytes) : bytesEqual a b = false <-> a <> b.
Proof.
  rewrite <- bytesEqual_eq. destruct (bytesEqual a b); split; congruence.
Qed.

(** ** [int64] arithmetic *)

Lemma wrap64_int64 (z : Z) : int64 z -> wrap64 z = z.
Proof.
  unfold int64, wrap64. intros Hz.
  rewrite Z.mod_small; lia.
Qed.


(** ** Properties of the bookings oracle *)

Import Ledger.

Lemma balanceOf_step_same T m b :
  balanceOf (bookingStep T m b) (peer b) = clampStep T (balanceOf m (peer b)) (amount b).
Proof.
  unfold bookingStep, balanceOf, clampStep.
  by rewrite lookup_insert_eq.
Qed.

Lemma balanceOf_step_other T m b p :
  peer b ≠ p -> balanceOf (bookingStep T m b) p = balanceOf m p.
Proof.
  intros Hne. unfold bookingStep, balanceOf.
  by rewrite lookup_insert_ne.
Qed.

Lemma amountsFor_cons_same b bs :
  amountsFor (peer b) (b :: bs) = amount b :: amountsFor (peer b) bs.
Proof.
  unfold amountsFor. rewrite filter_cons_True by done. done.
Qed.

Lemma amountsFor_cons_other b bs p :
  peer b ≠ p -> amountsFor p (b :: bs) = amountsFor p bs.
Proof.
  intros Hne. unfold amountsFor. by rewrite filter_cons_False.
Qed.

(** Each peer's balance only depends on that peer's own bookings. *)
Lemma balanceOf_fold T bs : forall m p,
  balanceOf (fold_left (bookingStep T) bs m) p
  = fold_left (clampStep T) (amountsFor p bs) (balanceOf m p).
Proof.
  induction bs as [|b bs IH]; intros m p; [done|].
  cbn [fold_left]. rewrite IH.
  destruct (decide (peer b = p)) as [<-|Hne].
  - rewrite amountsFor_cons_same, balanceOf_step_same. done.
  - rewrite amountsFor_cons_other, balanceOf_step_other by done. done.
Qed.

Lemma balanceOf_expected T bs p :
  balanceOf (calculateExpectedBalances T bs) p
  = fold_left (clampStep T) (amountsFor p bs) 0.
Proof.
  unfold calculateExpectedBalances. rewrite balanceOf_fold.
  unfold balanceOf. by rewrite lookup_empty.
Qed.

(** Once at or past the threshold the balance never changes again. *)
Lemma clamp_frozen T amts : forall bal,
  T <= bal -> fold_left (clampStep T) amts bal = bal.
Proof.
  induction amts as [|a amts IH]; intros bal Hge; [done|].
  cbn [fold_left]. unfold clampStep at 2.
  destruct (Z.ltb_spec bal T); [lia|]. by apply IH.
Qed.

(** The clamped sum is the plain [int64] sum of a prefix of the amounts: the
    prefix ends with the first amount that brings the running sum to the
    threshold. *)
Lemma clamp_prefix T amts : forall bal,
  exists k : nat,
    (k <= length amts)%nat /\
    fold_left (clampStep T) amts bal = sum64 bal (take k amts) /\
    (forall j : nat, (j < k)%nat -> sum64 bal (take j amts) < T) /\
    ((k < length amts)%nat -> T <= sum64 bal (take k amts)).
Proof.
  induction amts as [|a amts IH]; intros bal.
  - exists 0%nat. cbn. repeat split; intros; lia.
  - destruct (Z.ltb_spec bal T) as [Hlt|Hge].
    + destruct (IH (add64 bal a)) as (k & Hk & Hsum & Hbelow & Hreach).
      exists (S k). cbn [length take fold_left sum64].
      repeat split.
      * lia.
      * unfold clampStep at 2. destruct (Z.ltb_spec bal T); [|lia]. exact Hsum.
      * intros [|j] Hj; [exact Hlt|]. cbn. apply Hbelow. lia.
      * intros Hlen. apply Hreach. lia.
    + exists 0%nat. cbn [length take sum64 fold_left].
      repeat split.
      * lia.
      * unfold clampStep at 2. destruct (Z.ltb_spec bal T); [lia|].
        by apply clamp_frozen.
      * intros j Hj. lia.
      * intros _. exact Hge.
Qed.

(** A peer has an entry exactly when a booking named it (or it had one). *)
Lemma lookup_fold_None T bs : forall (m : gmap N Z) p,
  fold_left (bookingStep T) bs m !! p = None
  <-> m !! p = None /\ hasBooking p bs = false.
Proof.
  induction bs as [|b bs IH]; intros m p; cbn [fold_left hasBooking existsb].
  - intuition congruence.
  - rewrite IH. unfold bookingStep at 1.
    destruct (N.eqb_spec (peer b) p) as [->|Hne]; cbn [orb].
    + rewrite lookup_insert_eq. intuition congruence.
    + rewrite lookup_insert_ne by done. done.
Qed.


(** ** Claims about the ledger *)

(** C1, as the code has it.  For every disconnect threshold, list of
    bookings and peer, the balance the tests require for the peer is the
    [int64] sum of a prefix of the amounts booked for that peer: every
    running sum before the end of the prefix is below the threshold, and
    when some amounts are left out the sum has reached the threshold.  From
    that point on no amount is applied, whether debit or credit. *)
Theorem C1_balance_is_sum_up_to_threshold (T : Z) (bs : list booking) (p : ID) :
  exists k : nat,
    (k <= length (amountsFor p bs))%nat /\
    balanceOf (calculateExpectedBalances T bs) p
      = sum64 0 (take k (amountsFor p bs)) /\
    (forall j : nat, (j < k)%nat -> sum64 0 (take j (amountsFor p bs)) < T) /\
    ((k < length (amountsFor p bs))%nat ->
       T <= sum64 0 (take k (amountsFor p bs))).
Proof.
  rewrite balanceOf_expected.
  destruct (clamp_prefix T (amountsFor p bs) 0) as (k & Hk & Hsum & Hbelow & Hreach).
  exists k. split; [exact Hk|]. split; [exact Hsum|].
  split; [exact Hbelow | exact Hreach].
Qed.

(** C1, as stated, fails.  With threshold 10 and a first booking of 10 the
    balance has reached the threshold; a second booking is then ignored
    whatever its sign, while the claim lets a credit through: -3 when debits
    are the positive amounts, +3 when debits are the negative amounts.  When
    the debit direction is taken downwards instead, the claim drops the
    debit -3 at balance -10 (threshold 10 reached at -10, or threshold -10),
    while the code books it in the first case and never books anything in
    the second. *)
Lemma C1_credit_past_threshold_is_dropped :
  balanceOf (calculateExpectedBalances 10 [mkBooking 10 1; mkBooking (-3) 1]) 1%N
    <> creditsStillApply (atOrAbove 10) isPositive
         (amountsFor 1%N [mkBooking 10 1; mkBooking (-3) 1])
  /\
  balanceOf (calculateExpectedBalances 10 [mkBooking 10 1; mkBooking 3 1]) 1%N
    <> creditsStillApply (atOrAbove 10) isNegative
         (amountsFor 1%N [mkBooking 10 1; mkBooking 3 1])
  /\
  balanceOf (calculateExpectedBalances 10 [mkBooking (-10) 1; mkBooking (-3) 1]) 1%N
    <> creditsStillApply (atOrBelow (-10)) isNegative
         (amountsFor 1%N [mkBooking (-10) 1; mkBooking (-3) 1])
  /\
  balanceOf (calculateExpectedBalances (-10) [mkBooking (-10) 1; mkBooking 3 1]) 1%N
    <> creditsStillApply (atOrBelow (-10)) isNegative
         (amountsFor 1%N [mkBooking (-10) 1; mkBooking 3 1]).
Proof.
  repeat split; vm_compute; discriminate.
Qed.

(** What the four sides of the comparison evaluate to. *)
Example C1_values :
  balanceOf (calculateExpectedBalances 10 [mkBooking 10 1; mkBooking (-3) 1]) 1%N = 10 /\
  creditsStillApply (atOrAbove 10) isPositive [10; -3] = 7 /\
  balanceOf (calculateExpectedBalances 10 [mkBooking 10 1; mkBooking 3 1]) 1%N = 10 /\
  creditsStillApply (atOrAbove 10) isNegative [10; 3] = 13 /\
  balanceOf (calculateExpectedBalances 10 [mkBooking (-10) 1; mkBooking (-3) 1]) 1%N = -13 /\
  creditsStillApply (atOrBelow (-10)) isNegative [-10; -3] = -10 /\
  balanceOf (calculateExpectedBalances (-10) [mkBooking (-10) 1; mkBooking 3 1]) 1%N = 0 /\
  creditsStillApply (atOrBelow (-10)) isNegative [-10; 3] = -7.
Proof. vm_compute. repeat split; reflexivity. Qed.

(** Below the threshold all the way, as in [TestRepeatedBookings], the
    balance is the plain sum. *)
Lemma balance_is_sum_below_threshold (T : Z) (bs : list booking) (p : ID) :
  (forall j : nat, (j < length (amountsFor p bs))%nat ->
      sum64 0 (take j (amountsFor p bs)) < T) ->
  balanceOf (calculateExpectedBalances T bs) p = sum64 0 (amountsFor p bs).
Proof.
  intros Hbelow.
  rewrite balanceOf_expected.
  destruct (clamp_prefix T (amountsFor p bs) 0) as (k & Hk & Hsum & _ & Hreach).
  destruct (decide (k < length (amountsFor p bs))%nat) as [Hlt|Hge].
  - specialize (Hbelow k Hlt). specialize (Hreach Hlt). lia.
  - rewrite Hsum. by rewrite firstn_all2 by lia.
Qed.

(** A run of [TestRepeatedBookings]: credits to one peer, debits to a
    second, then mixed bookings for the second, all far from the threshold. *)
Example repeated_bookings :
  let bookings :=
    generateBookings 37 5 1%N ++ generateBookings (-12) 3 2%N
      ++ [mkBooking 80 2%N; mkBooking (-54) 2%N; mkBooking (-998) 2%N] in
  calculateExpectedBalances 1000000 bookings
  = <[1%N := 185]> (<[2%N := -1008]> ∅).
Proof. vm_compute. reflexivity. Qed.

(** [TestGetPeerBalance]: a stored balance of 888 is returned, a peer that
    was never booked is not found. *)
Example getPeerBalance_888 :
  GetPeerBalance (<[5%N := 888]> ∅) 5%N = Ok 888 /\
  GetPeerBalance (<[5%N := 888]> ∅) 6%N = Err ErrorNotFound.
Proof. split; reflexivity. Qed.







(** ** Claims about the cheque codec *)

Import Cheque.

Lemma length_bigEndian (width : nat) (v : Z) : length (bigEndian width v) = width.
Proof. induction width as [|w IH]; cbn; [done|]. by rewrite IH. Qed.

Lemma fold_bigEndian (width : nat) (v : Z) : forall acc : Z,
  fold_left (fun acc b => 256 * acc + b) (bigEndian width v) acc
  = acc * 2 ^ (8 * Z.of_nat width) + v mod 2 ^ (8 * Z.of_nat width).
Proof.
  induction width as [|w IH]; intros acc.
  - cbn. rewrite Z.mod_1_r. lia.
  - cbn [bigEndian fold_left]. rewrite IH.
    change 255 with (Z.ones 8). rewrite Z.land_ones by lia.
    rewrite Z.shiftr_div_pow2 by lia.
    replace (8 * Z.of_nat (S w)) with (8 * Z.of_nat w + 8) by lia.
    rewrite Z.pow_add_r by lia.
    rewrite (Z.rem_mul_r v (2 ^ (8 * Z.of_nat w)) (2 ^ 8)) by lia.
    change (2 ^ 8) with 256. lia.
Qed.

(** Decoding what [bigEndian] wrote gives the number back. *)
Lemma fromBigEndian_bigEndian (width : nat) (v : Z) :
  0 <= v < 2 ^ (8 * Z.of_nat width) ->
  fromBigEndian (bigEndian width v) = v.
Proof.
  intros Hv. unfold fromBigEndian. rewrite fold_bigEndian.
  rewrite Z.mod_small; lia.
Qed.

Lemma uint64_fits_32_bytes (v : Z) :
  0 <= v < 2 ^ 64 -> 0 <= v < 2 ^ (8 * Z.of_nat 32).
Proof. intros Hv. change (8 * Z.of_nat 32) with 256. lia. Qed.

(** Five fields of fixed widths are found again in their concatenation. *)
Lemma fields_of_concatenation (a b c d e : bytes) :
  length a = 20%nat -> length b = 20%nat ->
  length c = 32%nat -> length d = 32%nat ->
  take 20 (a ++ b ++ c ++ d ++ e) = a /\
  take 20 (drop 20 (a ++ b ++ c ++ d ++ e)) = b /\
  take 32 (drop 40 (a ++ b ++ c ++ d ++ e)) = c /\
  take 32 (drop 72 (a ++ b ++ c ++ d ++ e)) = d /\
  drop 104 (a ++ b ++ c ++ d ++ e) = e.
Proof.
  intros Ha Hb Hc Hd.
  assert (drop 20 (a ++ b ++ c ++ d ++ e) = b ++ c ++ d ++ e) as E2.
  { by rewrite drop_app_length' by done. }
  assert (drop 40 (a ++ b ++ c ++ d ++ e) = c ++ d ++ e) as E3.
  { change 40%nat with (20 + 20)%nat. rewrite <- drop_drop, E2.
    by rewrite drop_app_length' by done. }
  assert (drop 72 (a ++ b ++ c ++ d ++ e) = d ++ e) as E4.
  { change 72%nat with (40 + 32)%nat. rewrite <- drop_drop, E3.
    by rewrite drop_app_length' by done. }
  assert (drop 104 (a ++ b ++ c ++ d ++ e) = e) as E5.
  { change 104%nat with (72 + 32)%nat. rewrite <- drop_drop, E4.
    by rewrite drop_app_length' by done. }
  rewrite E2, E3, E4, E5.
  repeat split; by rewrite take_app_length' by done.
Qed.

(** The cheque of [newTestCheque], with the beneficiary address computed
    from [beneficiaryKey]. *)
Lemma newTestCheque_fields :
  newTestCheque
  = {| Params := {| Contract := Hex2Bytes "4405415b2b8c9f9aa83e151637b8378dd3bcfedd";
                    Serial := 1; Amount := 42; Timeout := 10;
                    Beneficiary := Hex2Bytes "b8d424e9662fe0837fb1d728f1ac97cebb1085fe" |};
       Sig := [] |}.
Proof. vm_compute. reflexivity. Qed.

(** C2, as the code has it.  The encoding of a well-formed cheque is the
    contract address (20 bytes), the beneficiary address (20 bytes), then
    serial, amount and timeout as 32-byte big-endian numbers, 136 bytes in
    all, from which each field is read back; the cheque of [newTestCheque]
    encodes to the 136 bytes [TestEncodeCheque] expects and hashes to the
    32 bytes [TestSigHashCheque] expects. *)
Theorem C2_encoding_layout_and_test_vectors (cheque : Cheque) :
  wellFormed cheque ->
  (length (encodeCheque cheque) = 136%nat /\
   take 20 (encodeCheque cheque) = Contract (Params cheque) /\
   take 20 (drop 20 (encodeCheque cheque)) = Beneficiary (Params cheque) /\
   take 32 (drop 40 (encodeCheque cheque)) = bigEndian 32 (Serial (Params cheque)) /\
   take 32 (drop 72 (encodeCheque cheque)) = bigEndian 32 (Amount (Params cheque)) /\
   drop 104 (encodeCheque cheque) = bigEndian 32 (Timeout (Params cheque)) /\
   fromBigEndian (take 32 (drop 40 (encodeCheque cheque))) = Serial (Params cheque) /\
   fromBigEndian (take 32 (drop 72 (encodeCheque cheque))) = Amount (Params cheque) /\
   fromBigEndian (drop 104 (encodeCheque cheque)) = Timeout (Params cheque)) /\
  (encodeCheque newTestCheque = expectedEncoding /\
   length expectedEncoding = 136%nat /\
   sigHashCheque newTestCheque = expectedSigHash /\
   length expectedSigHash = 32%nat).
Proof.
  intros (Hc & Hb & Hs & Ha & Ht). split.
  - unfold encodeCheque.
    destruct (fields_of_concatenation
                (Contract (Params cheque)) (Beneficiary (Params cheque))
                (bigEndian 32 (Serial (Params cheque)))
                (bigEndian 32 (Amount (Params cheque)))
                (bigEndian 32 (Timeout (Params cheque))))
      as (E1 & E2 & E3 & E4 & E5);
      [exact Hc | exact Hb | apply length_bigEndian | apply length_bigEndian |].
    rewrite E1, E2, E3, E4, E5.
    rewrite !length_app, !length_bigEndian, Hc, Hb.
    rewrite !fromBigEndian_bigEndian by (by apply uint64_fits_32_bytes).
    done.
  - rewrite newTestCheque_fields.
    split; [|split; [|split]]; vm_compute; reflexivity.
Qed.

(** The cheque of [newTestCheque] is well formed, and the theorem at it. *)
Lemma C2_newTestCheque_layout :
  wellFormed newTestCheque /\
  length (encodeCheque newTestCheque) = 136%nat /\
  encodeCheque newTestCheque = expectedEncoding /\
  sigHashCheque newTestCheque = expectedSigHash.
Proof.
  assert (wellFormed newTestCheque) as Hwf.
  { rewrite newTestCheque_fields. unfold wellFormed. cbn.
    split; [reflexivity|]. split; [reflexivity|]. lia. }
  pose proof (C2_encoding_layout_and_test_vectors newTestCheque Hwf)
    as [(Hlen & _) (Henc & _ & Hhash & _)].
  exact (conj Hwf (conj Hlen (conj Henc Hhash))).
Defined.

(** C2, as stated, fails.  With the order contract, serial, amount, timeout,
    beneficiary the cheque of [newTestCheque] does not encode to the bytes
    [TestEncodeCheque] expects, and neither those bytes nor the encoding in
    that order are 118 bytes long: both have 136 bytes. *)
Lemma C2_specified_layout_and_length_fail :
  encodeAsSpecified newTestCheque <> expectedEncoding /\
  length (encodeAsSpecified newTestCheque) <> 118%nat /\
  length expectedEncoding <> 118%nat.
Proof.
  rewrite newTestCheque_fields.
  split; [|split]; vm_compute; discriminate.
Qed.

(** The digest [TestSigHashCheque] expects is not the plain Keccak-256
    digest of the encoding. *)
Example sigHash_is_not_the_plain_digest :
  sigHashAsSpecified newTestCheque <> expectedSigHash.
Proof. rewrite newTestCheque_fields. vm_compute. discriminate. Qed.

(** The addresses of the two test keys. *)
Example test_addresses :
  ownerAddress = Hex2Bytes "8d3766440f0d7b949a5e32995d09619a7f86e632" /\
  beneficiaryAddress = Hex2Bytes "b8d424e9662fe0837fb1d728f1ac97cebb1085fe".
Proof. split; vm_compute; reflexivity. Qed.


(** ** The signature tests *)

(** The verdict of [verifyChequeSig] is decided by the recovery alone: it
    is the invalid-signature error when no key is recovered or the address
    of the recovered key is not the expected signer, and nil otherwise. *)
Lemma verifyChequeSig_verdict (cheque : Cheque) (expectedSigner : Address) :
  verifyChequeSig cheque expectedSigner
  = match Secp256k1.recover (sigHashCheque cheque) (addToLast (-27) (Sig cheque)) with
    | Some pub =>
        if bool_decide (Secp256k1.PubkeyToAddress pub = expectedSigner)
        then None else Some ErrInvalidChequeSignature
    | None => Some ErrInvalidChequeSignature
    end.
Proof.
  unfold verifyChequeSig.
  destruct (Secp256k1.recover _ _) as [pub|]; [|done].
  case_bool_decide as Heq.
  - apply bytesEqual_eq in Heq. by rewrite Heq.
  - apply bytesEqual_neq in Heq. by rewrite Heq.
Qed.

(** [TestSignContent]: signing the test cheque with [ownerKey] gives the 65
    bytes of [chequeSig]. *)
Example TestSignContent :
  signContent newTestCheque ownerKey = Ok chequeSig /\ length chequeSig = 65%nat.
Proof. rewrite newTestCheque_fields. split; vm_compute; reflexivity. Qed.

(** [TestVerifyChequeSig]: [chequeSig] is accepted for [ownerAddress]. *)
Example TestVerifyChequeSig :
  verifyChequeSig (withSig newTestCheque chequeSig) ownerAddress = None.
Proof. rewrite newTestCheque_fields. vm_compute. reflexivity. Qed.

(** [TestVerifyChequeSigWrongSigner]: it is refused for another signer. *)
Example TestVerifyChequeSigWrongSigner :
  verifyChequeSig (withSig newTestCheque chequeSig) beneficiaryAddress
  = Some ErrInvalidChequeSignature.
Proof. rewrite newTestCheque_fields. vm_compute. reflexivity. Qed.

(** [TestVerifyChequeInvalidSignature]: with 2 added to the byte at index
    27 the signature is refused. *)
Example TestVerifyChequeInvalidSignature :
  verifyChequeSig (withSig newTestCheque (bumpByte 27 2 chequeSig)) ownerAddress
  = Some ErrInvalidChequeSignature.
Proof. rewrite newTestCheque_fields. vm_compute. reflexivity. Qed.


(** ** Claims about the contract check, the handshake and the registry *)

Import Protocol.



Lemma peers_removePeer_other s p id :
  peerID p <> id -> peers (removePeer s p) !! id = peers s !! id.
Proof. intros Hne. cbn. by apply lookup_delete_ne. Qed.

Section ProtocolFacts.

Variable referenceCode : bytes.
Variable handshakeError : error -> error.
Variable logBalance : Swap -> ID -> Swap.
Variable messageLoop : Swap -> Peer -> Swap * Outcome.

Local Abbreviation verifyContract := (Protocol.verifyContract referenceCode).
Local Abbreviation verifyHandshake := (Protocol.verifyHandshake referenceCode).
Local Abbreviation Handshake := (Protocol.Handshake handshakeError).
Local Abbreviation run :=
  (Protocol.run referenceCode handshakeError logBalance messageLoop).

(** A handshake that fails leaves [run] before anything is registered. *)
Lemma run_handshake_failed s p x err :
  Handshake x (IsHandshakeMsg {| ContractAddress := ownerContract s |})
            (verifyHandshake s) = Err err ->
  run s p x = {| final := s; outcome := Returned (Some err); active := None |}.
Proof. intros H. unfold Protocol.run. by rewrite H. Qed.

(** A message accepted by [verifyHandshake] is a handshake message, so the
    type assertions of [run] cannot panic. *)
Lemma verifyHandshake_accepts s msg :
  verifyHandshake s msg = None ->
  exists h, msg = IsHandshakeMsg h /\ ContractAddress h <> zeroAddress
            /\ verifyContract (backend s) (ContractAddress h) = None.
Proof.
  unfold Protocol.verifyHandshake.
  destruct msg as [h| | |]; cbn; try discriminate.
  case_bool_decide; [discriminate|]. intros Hv. by exists h.
Qed.

Lemma Handshake_ok s x hs answer :
  Handshake x hs (verifyHandshake s) = Ok answer ->
  sent x = None /\ received x = Ok answer /\ verifyHandshake s answer = None.
Proof.
  unfold Protocol.Handshake.
  destruct (sent x); [discriminate|].
  destruct (received x) as [rhs|]; [|discriminate].
  destruct (Protocol.verifyHandshake referenceCode s rhs) eqn:Hv; [discriminate|].
  intros [= <-]. done.
Qed.

(** [run] panics only if the message loop does: the type assertions on the
    answer of the handshake always succeed. *)
Lemma run_panics_only_in_loop s p x :
  outcome (run s p x) = Panicked -> exists entered, active (run s p x) = Some entered.
Proof.
  unfold Protocol.run.
  destruct (Protocol.Handshake _ _ _ _) as [answer|] eqn:Hhs; [|discriminate].
  apply Handshake_ok in Hhs as (_ & _ & Hv).
  apply verifyHandshake_accepts in Hv as (h & -> & _ & _). cbn.
  destruct (getContractOwner s _) as [benef|]; [|discriminate].
  destruct (messageLoop _ _) as [s3 exit]. cbn. eauto.
Qed.

(** C6.  When the backend delivers the bytecode of an address, the contract
    check accepts the address if that bytecode is the expected bytecode and
    answers ErrNotASwapContract if it differs from it in any way; an address
    without code is a case of the latter as soon as the expected bytecode is
    not empty. *)
Theorem C6_verifyContract_compares_bytecode
    (b : Backend) (address : Address) (code : bytes) :
  CodeAt b address = Ok code ->
  (code = referenceCode -> verifyContract b address = None) /\
  (code <> referenceCode -> verifyContract b address = Some ErrNotASwapContract) /\
  (code = [] -> referenceCode <> [] ->
     verifyContract b address = Some ErrNotASwapContract).
Proof.
  intros Hcode. unfold Protocol.verifyContract. rewrite Hcode.
  split; [|split].
  - intros Heq. apply bytesEqual_eq in Heq. by rewrite Heq.
  - intros Hne. apply bytesEqual_neq in Hne. by rewrite Hne.
  - intros -> Hne.
    assert (bytesEqual [] referenceCode = false) as ->; [|done].
    apply bytesEqual_neq. congruence.
Qed.

(** C7.  A handshake message that declares the zero contract address is
    refused with ErrEmptyAddressInSignature; for any other declared address
    the answer is that of the contract check on this address; and when the
    message received is refused, [run] returns the error the handshake
    reports, the session never becomes active and the service, its peer set
    included, is left as it was. *)
Theorem C7_handshake_checks_declared_contract (s : Swap) (p : ID) (x : Exchange) :
  (forall h : HandshakeMsg,
      ContractAddress h = zeroAddress ->
      verifyHandshake s (IsHandshakeMsg h) = Some ErrEmptyAddressInSignature) /\
  (forall h : HandshakeMsg,
      ContractAddress h <> zeroAddress ->
      verifyHandshake s (IsHandshakeMsg h)
      = verifyContract (backend s) (ContractAddress h)) /\
  (forall (msg : Msg) (err : error),
      sent x = None -> received x = Ok msg ->
      verifyHandshake s msg = Some err ->
      run s p x = {| final := s;
                     outcome := Returned (Some (handshakeError err));
                     active := None |}).
Proof.
  split; [|split].
  - intros h Hzero. unfold Protocol.verifyHandshake. cbn.
    by rewrite bool_decide_eq_true_2.
  - intros h Hnz. unfold Protocol.verifyHandshake. cbn.
    by rewrite bool_decide_eq_false_2.
  - intros msg err Hsent Hrecv Hv. apply run_handshake_failed.
    unfold Protocol.Handshake. by rewrite Hsent, Hrecv, Hv.
Qed.


(** C10.  A message that is not a handshake message gets from
    [verifyHandshake] the very error of a handshake message that declares
    the zero address, ErrEmptyAddressInSignature. *)
Theorem C10_not_a_handshake_message_reads_as_empty_address (s : Swap) (msg : Msg) :
  asHandshakeMsg msg = None ->
  verifyHandshake s msg = Some ErrEmptyAddressInSignature /\
  verifyHandshake s msg
  = verifyHandshake s (IsHandshakeMsg {| ContractAddress := zeroAddress |}).
Proof.
  intros Hno. unfold Protocol.verifyHandshake. rewrite Hno. cbn.
  by rewrite bool_decide_eq_true_2.
Qed.

End ProtocolFacts.

(** *** The theorems at a sample service *)

Lemma C6_verifyContract_at_sample :
  CodeAt Sample.chain Sample.library = Ok Sample.otherCode /\
  ((Sample.otherCode = Sample.code ->
      Protocol.verifyContract Sample.code Sample.chain Sample.library = None) /\
   (Sample.otherCode <> Sample.code ->
      Protocol.verifyContract Sample.code Sample.chain Sample.library
      = Some ErrNotASwapContract) /\
   (Sample.otherCode = [] -> Sample.code <> [] ->
      Protocol.verifyContract Sample.code Sample.chain Sample.library
      = Some ErrNotASwapContract)).
Proof.
  split.
  - reflexivity.
  - apply (C6_verifyContract_compares_bytecode
             Sample.code Sample.chain Sample.library Sample.otherCode).
    reflexivity.
Defined.

Lemma C7_refused_handshake_at_sample :
  Protocol.verifyHandshake Sample.code Sample.service
    (IsHandshakeMsg {| ContractAddress := zeroAddress |})
  = Some ErrEmptyAddressInSignature /\
  Protocol.verifyHandshake Sample.code Sample.service
    (IsHandshakeMsg {| ContractAddress := Sample.library |})
  = Protocol.verifyContract Sample.code Sample.chain Sample.library /\
  Protocol.run Sample.code ErrHandshake Sample.quiet Sample.loop
               Sample.service Sample.remotePeer Sample.badExchange
  = {| final := Sample.service;
       outcome := Returned (Some (ErrHandshake ErrNotASwapContract));
       active := None |}.
Proof.
  destruct (C7_handshake_checks_declared_contract
              Sample.code ErrHandshake Sample.quiet Sample.loop
              Sample.service Sample.remotePeer Sample.badExchange)
    as (Hzero & Hcheck & Habort).
  split; [|split].
  - apply Hzero. reflexivity.
  - apply Hcheck. discriminate.
  - apply (Habort (IsHandshakeMsg {| ContractAddress := Sample.library |})
                  ErrNotASwapContract); reflexivity.
Defined.


Lemma C10_error_message_at_sample :
  asHandshakeMsg IsErrorMsg = None /\
  (Protocol.verifyHandshake Sample.code Sample.service IsErrorMsg
   = Some ErrEmptyAddressInSignature /\
   Protocol.verifyHandshake Sample.code Sample.service IsErrorMsg
   = Protocol.verifyHandshake Sample.code Sample.service
       (IsHandshakeMsg {| ContractAddress := zeroAddress |})).
Proof.
  split.
  - reflexivity.
  - apply (C10_not_a_handshake_message_reads_as_empty_address
             Sample.code Sample.service IsErrorMsg).
    reflexivity.
Defined.

(** [TestVerifyContract] and [TestVerifyContractWrongContract] on the sample
    chain, and an address without code. *)
Example verifyContract_sample :
  Protocol.verifyContract Sample.code Sample.chain Sample.deployed = None /\
  Protocol.verifyContract Sample.code Sample.chain Sample.library
  = Some ErrNotASwapContract /\
  Protocol.verifyContract Sample.code Sample.chain zeroAddress
  = Some ErrNotASwapContract.
Proof. repeat split; reflexivity. Qed.

(** A refused handshake on the sample service: nothing is registered. *)
Example run_refused_sample :
  Protocol.run Sample.code ErrHandshake Sample.quiet Sample.loop
               Sample.service Sample.remotePeer Sample.badExchange
  = {| final := Sample.service;
       outcome := Returned (Some (ErrHandshake ErrNotASwapContract));
       active := None |}.
Proof. reflexivity. Qed.


(** ** Claims about the state store *)

Import StateStore.

Lemma NewDBStore_keeps (path : string) (disk : Disk) :
  default ∅ (snd (NewDBStore path disk) !! path) = default ∅ (disk !! path).
Proof.
  unfold NewDBStore. cbn.
  destruct (disk !! path) eqn:Hd.
  - by rewrite Hd.
  - by rewrite lookup_insert_eq.
Qed.

(** What was put is read back, across closing and opening the store again. *)
Lemma restoreBalance_key (path : string) (disk : Disk) (key : string) (v : Z) :
  let '(stateStore, disk1) := NewDBStore path disk in
  let '(_, disk2) := Put stateStore key v disk1 in
  let '(stateStore2, disk3) := NewDBStore path disk2 in
  Get stateStore2 key disk3 = Ok (wrap64 v).
Proof.
  unfold NewDBStore, Put, Get. cbn.
  repeat (rewrite lookup_insert_eq; cbn). done.
Qed.

(** C9.  For every store directory, state of the disk, peer identifier and
    [int64] balance: putting the balance under the peer's key, closing the
    store, opening it again on the same directory and reading the key gives
    the balance back. *)
Theorem C9_balance_survives_reopening
    (path : string) (disk : Disk) (id : ID) (balance : Z) :
  int64 balance ->
  restoreBalance path disk id balance = Ok balance.
Proof.
  intros Hrange. unfold restoreBalance.
  pose proof (restoreBalance_key path disk (IDString id) balance) as Hkey.
  destruct (NewDBStore path disk) as [stateStore disk1].
  destruct (Put stateStore (IDString id) balance disk1) as [e disk2].
  destruct (NewDBStore path disk2) as [stateStore2 disk3].
  by rewrite Hkey, wrap64_int64.
Qed.

(** The balance of [TestRestoreBalanceFromStateStore] on a fresh disk. *)
Lemma C9_restores_minus_8888 :
  int64 (-8888) /\
  restoreBalance "swap_test_store" ∅ 7%N (-8888) = Ok (-8888).
Proof.
  split.
  - unfold int64. lia.
  - apply (C9_balance_survives_reopening "swap_test_store" ∅ 7%N (-8888)).
    unfold int64. lia.
Defined.


(** ** More on the expected balances *)

Lemma hasBooking_spec (p : ID) (bs : list booking) :
  hasBooking p bs = true <-> p ∈ map peer bs.
Proof.
  unfold hasBooking. rewrite existsb_exists, list_elem_of_In, in_map_iff.
  split; intros (b & H1 & H2); exists b.
  - apply N.eqb_eq in H2. done.
  - split; [done|]. by apply N.eqb_eq.
Qed.

Lemma hasBooking_amounts (p : ID) (bs : list booking) :
  hasBooking p bs = false <-> amountsFor p bs = [].
Proof.
  induction bs as [|b bs IH]; [done|].
  cbn [hasBooking existsb]. fold (hasBooking p bs).
  destruct (N.eqb_spec (peer b) p) as [<-|Hne]; cbn [orb].
  - rewrite amountsFor_cons_same. split; discriminate.
  - by rewrite amountsFor_cons_other.
Qed.

(** The entry of a peer in the expected balances. *)
Lemma lookup_expected (T : Z) (bs : list booking) (p : ID) :
  calculateExpectedBalances T bs !! p
  = if hasBooking p bs
    then Some (fold_left (clampStep T) (amountsFor p bs) 0)
    else None.
Proof.
  destruct (hasBooking p bs) eqn:Hb.
  - destruct (calculateExpectedBalances T bs !! p) as [v|] eqn:Hv.
    + f_equal. rewrite <- balanceOf_expected. unfold balanceOf. by rewrite Hv.
    + apply lookup_fold_None in Hv as [_ Hv]. congruence.
  - apply lookup_fold_None. split; [apply lookup_empty|done].
Qed.

Lemma amountsFor_filter (p : ID) (bs : list booking) :
  amountsFor p (filter (fun b => peer b = p) bs) = amountsFor p bs.
Proof.
  unfold amountsFor. f_equal.
  induction bs as [|b bs IH]; [done|].
  destruct (decide (peer b = p)) as [Heq|Hne].
  - rewrite (filter_cons_True _ b bs) by done.
    rewrite (filter_cons_True _ b (filter _ bs)) by done. by rewrite IH.
  - by rewrite (filter_cons_False _ b bs) by done.
Qed.

Lemma amountsFor_app (p : ID) (bs bs' : list booking) :
  amountsFor p (bs ++ bs') = amountsFor p bs ++ amountsFor p bs'.
Proof. unfold amountsFor. by rewrite filter_app, map_app. Qed.

Lemma sum64_snoc (start : Z) (amts : list Z) (a : Z) :
  sum64 start (amts ++ [a]) = add64 (sum64 start amts) a.
Proof. unfold sum64. by rewrite fold_left_app. Qed.

Lemma total_snoc (amts : list Z) (a : Z) : total (amts ++ [a]) = total amts + a.
Proof.
  unfold total. induction amts as [|x amts IH]; cbn; [lia|]. rewrite IH. lia.
Qed.

(** X1.  The entry of a peer in the expected balances is the one computed
    from the bookings of that peer alone: the bookings of other peers have
    no influence on it. *)
Theorem X1_peer_isolation (T : Z) (bs : list booking) (p : ID) :
  calculateExpectedBalances T bs !! p
  = calculateExpectedBalances T (filter (fun b => peer b = p) bs) !! p.
Proof.
  rewrite !lookup_expected, amountsFor_filter.
  destruct (hasBooking p bs) eqn:Hb;
    destruct (hasBooking p (filter (fun b => peer b = p) bs)) eqn:Hf; try done.
  - apply hasBooking_amounts in Hf. rewrite amountsFor_filter in Hf.
    apply hasBooking_amounts in Hf. congruence.
  - apply hasBooking_amounts in Hb. rewrite <- amountsFor_filter in Hb.
    apply hasBooking_amounts in Hb. congruence.
Qed.

(** X2.  Two lists of bookings in which every peer has the same amounts in
    the same order give the same expected balances, however the bookings of
    different peers are interleaved. *)
Theorem X2_interleaving_is_irrelevant (T : Z) (bs1 bs2 : list booking) :
  (forall p : ID, amountsFor p bs1 = amountsFor p bs2) ->
  calculateExpectedBalances T bs1 = calculateExpectedBalances T bs2.
Proof.
  intros Hsame. apply map_eq. intros p.
  rewrite !lookup_expected, Hsame.
  destruct (hasBooking p bs1) eqn:H1; destruct (hasBooking p bs2) eqn:H2; try done.
  - apply hasBooking_amounts in H2. rewrite <- Hsame in H2.
    apply hasBooking_amounts in H2. congruence.
  - apply hasBooking_amounts in H1. rewrite Hsame in H1.
    apply hasBooking_amounts in H1. congruence.
Qed.

Lemma X2_two_interleavings :
  (forall p : ID,
      amountsFor p [mkBooking 5 1; mkBooking (-2) 2; mkBooking 7 1]
      = amountsFor p [mkBooking 5 1; mkBooking 7 1; mkBooking (-2) 2]) /\
  calculateExpectedBalances 10 [mkBooking 5 1; mkBooking (-2) 2; mkBooking 7 1]
  = calculateExpectedBalances 10 [mkBooking 5 1; mkBooking 7 1; mkBooking (-2) 2].
Proof.
  assert (forall p : ID,
             amountsFor p [mkBooking 5 1; mkBooking (-2) 2; mkBooking 7 1]
             = amountsFor p [mkBooking 5 1; mkBooking 7 1; mkBooking (-2) 2]) as H.
  { intros p. unfold amountsFor.
    destruct (decide (1%N = p)) as [<-|H1]; [reflexivity|].
    destruct (decide (2%N = p)) as [<-|H2]; [reflexivity|].
    rewrite !filter_cons_False by done. reflexivity. }
  split; [exact H|].
  exact (X2_interleaving_is_irrelevant 10 _ _ H).
Defined.

(** The wrapped sum of a prefix is its sum over the integers as long as the
    sums of all shorter prefixes and its own are [int64] values. *)
Lemma sum64_total (amts : list Z) : forall k : nat,
  (forall j : nat, (j <= k)%nat -> int64 (total (take j amts))) ->
  sum64 0 (take k amts) = total (take k amts).
Proof.
  induction k as [|k IH]; intros Hrange.
  - by rewrite take_0.
  - destruct (decide (k < length amts)%nat) as [Hlt|Hge].
    + destruct (lookup_lt_is_Some_2 amts k Hlt) as [a Ha].
      rewrite (take_S_r amts k a Ha) in *.
      rewrite sum64_snoc, total_snoc, IH.
      * unfold add64. apply wrap64_int64.
        specialize (Hrange (S k) (le_n _)).
        rewrite (take_S_r amts k a Ha), total_snoc in Hrange. exact Hrange.
      * intros j Hj. apply Hrange. lia.
    + rewrite (take_ge amts (S k)) by lia.
      rewrite <- (take_ge amts k) by lia. apply IH.
      intros j Hj. apply Hrange. lia.
Qed.

(** X3.  When, for a peer, the sum over the integers of every prefix of its
    amounts is an [int64] value and the sum of every proper prefix is below
    the disconnect threshold, the expected balance of the peer is the sum of
    all its amounts over the integers. *)
Theorem X3_balance_is_total_below_threshold (T : Z) (bs : list booking) (p : ID) :
  (forall j : nat, (j <= length (amountsFor p bs))%nat ->
      int64 (total (take j (amountsFor p bs)))) ->
  (forall j : nat, (j < length (amountsFor p bs))%nat ->
      total (take j (amountsFor p bs)) < T) ->
  balanceOf (calculateExpectedBalances T bs) p = total (amountsFor p bs).
Proof.
  intros Hrange Hbelow. rewrite balanceOf_expected.
  destruct (clamp_prefix T (amountsFor p bs) 0) as (k & Hk & Hsum & _ & Hreach).
  rewrite Hsum.
  destruct (decide (k < length (amountsFor p bs))%nat) as [Hlt|Hge].
  - specialize (Hreach Hlt). specialize (Hbelow k Hlt).
    rewrite sum64_total in Hreach; [lia|].
    intros j Hj. apply Hrange. lia.
  - assert (k = length (amountsFor p bs)) as -> by lia.
    rewrite sum64_total by exact Hrange. by rewrite firstn_all.
Qed.

Lemma X3_three_credits :
  let bs := [mkBooking 37 1; mkBooking (-12) 2; mkBooking 37 1; mkBooking 37 1] in
  (forall j : nat, (j <= length (amountsFor 1%N bs))%nat ->
      int64 (total (take j (amountsFor 1%N bs)))) /\
  (forall j : nat, (j < length (amountsFor 1%N bs))%nat ->
      total (take j (amountsFor 1%N bs)) < 1000) /\
  balanceOf (calculateExpectedBalances 1000 bs) 1%N = total (amountsFor 1%N bs).
Proof.
  cbv zeta.
  assert (forall j : nat,
             (j <= length (amountsFor 1%N
                [mkBooking 37 1; mkBooking (-12) 2; mkBooking 37 1; mkBooking 37 1]))%nat ->
             int64 (total (take j (amountsFor 1%N
                [mkBooking 37 1; mkBooking (-12) 2; mkBooking 37 1; mkBooking 37 1]))))
    as Hrange.
  { intros j _.
    change (amountsFor 1%N
              [mkBooking 37 1; mkBooking (-12) 2; mkBooking 37 1; mkBooking 37 1])
      with [37; 37; 37].
    destruct j as [|[|[|[|j]]]]; cbn; unfold int64; lia. }
  assert (forall j : nat,
             (j < length (amountsFor 1%N
                [mkBooking 37 1; mkBooking (-12) 2; mkBooking 37 1; mkBooking 37 1]))%nat ->
             total (take j (amountsFor 1%N
                [mkBooking 37 1; mkBooking (-12) 2; mkBooking 37 1; mkBooking 37 1])) < 1000)
    as Hbelow.
  { intros j _.
    change (amountsFor 1%N
              [mkBooking 37 1; mkBooking (-12) 2; mkBooking 37 1; mkBooking 37 1])
      with [37; 37; 37].
    destruct j as [|[|[|[|j]]]]; cbn; lia. }
  split; [exact Hrange|]. split; [exact Hbelow|].
  exact (X3_balance_is_total_below_threshold 1000 _ 1%N Hrange Hbelow).
Defined.

(** X4.  Once the expected balance of a peer has reached the disconnect
    threshold, no list of further bookings changes it. *)
Theorem X4_frozen_at_threshold (T : Z) (bs bs' : list booking) (p : ID) :
  T <= balanceOf (calculateExpectedBalances T bs) p ->
  balanceOf (calculateExpectedBalances T (bs ++ bs')) p
  = balanceOf (calculateExpectedBalances T bs) p.
Proof.
  rewrite !balanceOf_expected, amountsFor_app, fold_left_app.
  apply clamp_frozen.
Qed.

Lemma X4_frozen_at_twelve :
  10 <= balanceOf (calculateExpectedBalances 10 [mkBooking 6 1; mkBooking 6 1]) 1%N /\
  balanceOf (calculateExpectedBalances 10
               ([mkBooking 6 1; mkBooking 6 1] ++ [mkBooking (-4) 1; mkBooking 9 1])) 1%N
  = balanceOf (calculateExpectedBalances 10 [mkBooking 6 1; mkBooking 6 1]) 1%N.
Proof.
  assert (10 <= balanceOf (calculateExpectedBalances 10
                             [mkBooking 6 1; mkBooking 6 1]) 1%N) as H.
  { vm_compute. discriminate. }
  split; [exact H|].
  exact (X4_frozen_at_threshold 10 _ [mkBooking (-4) 1; mkBooking 9 1] 1%N H).
Defined.

(** X5.  With a disconnect threshold that is zero or negative no amount is
    ever applied: every peer named in the bookings gets an entry with
    balance zero. *)
Theorem X5_nothing_applies_without_headroom (T : Z) (bs : list booking) (p : ID) :
  T <= 0 ->
  calculateExpectedBalances T bs !! p = if hasBooking p bs then Some 0 else None.
Proof.
  intros HT. rewrite lookup_expected.
  destruct (hasBooking p bs); [|done].
  by rewrite clamp_frozen.
Qed.

Lemma X5_threshold_zero :
  0 <= 0 /\
  calculateExpectedBalances 0 [mkBooking 5 1; mkBooking (-3) 1] !! 1%N
  = if hasBooking 1%N [mkBooking 5 1; mkBooking (-3) 1] then Some 0 else None.
Proof.
  split; [lia|].
  apply (X5_nothing_applies_without_headroom 0 [mkBooking 5 1; mkBooking (-3) 1] 1%N).
  lia.
Defined.

(** X6.  The expected balances have an entry for exactly the peers that are
    named in some booking, whether an amount was applied for them or not. *)
Theorem X6_entries_are_the_booked_peers (T : Z) (bs : list booking) :
  dom (calculateExpectedBalances T bs) = (list_to_set (map peer bs) : gset N).
Proof.
  apply set_eq. intros p.
  rewrite elem_of_dom, elem_of_list_to_set, <- hasBooking_spec, lookup_expected.
  destruct (hasBooking p bs); split; intros H;
    first [done | by eexists | by destruct H].
Qed.

Lemma clamp_bounded (T M : Z) (amts : list Z) : forall b : Z,
  Forall (fun a => 0 <= a <= M) amts ->
  T + M < 2 ^ 63 ->
  0 <= b <= Z.max 0 (T - 1 + M) ->
  0 <= fold_left (clampStep T) amts b <= Z.max 0 (T - 1 + M).
Proof.
  induction amts as [|a amts IH]; intros b Hall HM Hb; [exact Hb|].
  apply Forall_cons in Hall as [Ha Hall].
  cbn [fold_left]. apply IH; [exact Hall|exact HM|].
  unfold clampStep. destruct (Z.ltb_spec b T) as [Hlt|Hge]; [|exact Hb].
  unfold add64. rewrite wrap64_int64 by (unfold int64; lia). lia.
Qed.

(** X7.  When the amounts booked for a peer are credits between 0 and M and
    the threshold plus M is an [int64] value, the expected balance of the
    peer stays between 0 and the threshold plus M minus one: the balance can
    pass the threshold, by less than one booking. *)
Theorem X7_overshoot_is_less_than_one_booking
    (T M : Z) (bs : list booking) (p : ID) :
  Forall (fun a => 0 <= a <= M) (amountsFor p bs) ->
  T + M < 2 ^ 63 ->
  0 <= balanceOf (calculateExpectedBalances T bs) p <= Z.max 0 (T - 1 + M).
Proof.
  intros Hall HM. rewrite balanceOf_expected.
  apply clamp_bounded; [exact Hall|exact HM|lia].
Qed.

Lemma X7_overshoot_at_ten :
  Forall (fun a => 0 <= a <= 6)
         (amountsFor 1%N [mkBooking 6 1; mkBooking 3 1; mkBooking 6 1; mkBooking 6 1]) /\
  10 + 6 < 2 ^ 63 /\
  0 <= balanceOf (calculateExpectedBalances 10
                    [mkBooking 6 1; mkBooking 3 1; mkBooking 6 1; mkBooking 6 1]) 1%N
    <= Z.max 0 (10 - 1 + 6).
Proof.
  assert (Forall (fun a => 0 <= a <= 6)
            (amountsFor 1%N [mkBooking 6 1; mkBooking 3 1; mkBooking 6 1; mkBooking 6 1]))
    as Hall.
  { change (amountsFor 1%N
              [mkBooking 6 1; mkBooking 3 1; mkBooking 6 1; mkBooking 6 1])
      with [6; 3; 6; 6].
    repeat constructor; lia. }
  assert (10 + 6 < 2 ^ 63) as HM by lia.
  split; [exact Hall|]. split; [exact HM|].
  exact (X7_overshoot_is_less_than_one_booking 10 6 _ 1%N Hall HM).
Defined.

Lemma amountsFor_generateBookings (amt : Z) (n : nat) (p : ID) :
  amountsFor p (generateBookings amt n p) = repeat amt n.
Proof.
  unfold generateBookings. induction n as [|n IH]; [done|].
  cbn [repeat]. rewrite (amountsFor_cons_same (mkBooking amt p)). cbn.
  by rewrite IH.
Qed.

(** The number of bookings of [amt] that are applied before the threshold
    is reached. *)
Lemma steps_to_threshold (T amt n : Z) :
  0 < amt -> 0 <= n ->
  (n < Z.max 0 ((T + amt - 1) / amt) <-> amt * n < T).
Proof.
  intros Hamt Hn.
  pose proof (Z.mul_div_le (T + amt - 1) amt Hamt) as Hle.
  pose proof (Z.mul_succ_div_gt (T + amt - 1) amt Hamt) as Hgt.
  split; intros H; nia.
Qed.

Lemma clamp_repeat (T amt : Z) (n : nat) :
  0 < amt -> T + amt < 2 ^ 63 ->
  fold_left (clampStep T) (repeat amt n) 0
  = amt * Z.min (Z.of_nat n) (Z.max 0 ((T + amt - 1) / amt)).
Proof.
  intros Hamt HM. induction n as [|n IH].
  - cbn. lia.
  - cbn [repeat]. rewrite repeat_cons, fold_left_app. cbn [fold_left].
    rewrite IH. unfold clampStep.
    pose proof (steps_to_threshold T amt (Z.of_nat n) Hamt ltac:(lia)) as Hsteps.
    destruct (Z.ltb_spec (amt * Z.min (Z.of_nat n) (Z.max 0 ((T + amt - 1) / amt))) T)
      as [Hlt|Hge].
    + assert (Z.of_nat n < Z.max 0 ((T + amt - 1) / amt)) as Hn.
      { destruct (Z.lt_ge_cases (Z.of_nat n) (Z.max 0 ((T + amt - 1) / amt)))
          as [Hm|Hm]; [exact Hm|].
        rewrite Z.min_r in Hlt by lia.
        pose proof (steps_to_threshold T amt (Z.max 0 ((T + amt - 1) / amt)) Hamt
                      ltac:(lia)) as Hk.
        apply Hk in Hlt. lia. }
      assert (amt * Z.of_nat n < T) as Hbelow by (apply Hsteps; exact Hn).
      assert (0 <= amt * Z.of_nat n) as Hpos by nia.
      rewrite (Z.min_l (Z.of_nat n)) by lia.
      rewrite (Z.min_l (Z.of_nat (S n))) by lia.
      unfold add64. rewrite wrap64_int64 by (unfold int64; lia). lia.
    + assert (Z.max 0 ((T + amt - 1) / amt) <= Z.of_nat n) as Hn.
      { destruct (Z.le_gt_cases (Z.max 0 ((T + amt - 1) / amt)) (Z.of_nat n))
          as [Hle|Hgt]; [done|].
        rewrite Z.min_l in Hge by lia. apply Hsteps in Hgt. lia. }
      rewrite !Z.min_r by lia. reflexivity.
Qed.

(** X8.  For [quantity] bookings of one positive amount to one peer, as
    [generateBookings] makes them, the expected balance is the amount times
    the number of bookings applied: the quantity, or the number of bookings
    it takes to reach the disconnect threshold if that is smaller. *)
Theorem X8_repeated_credits (T amt : Z) (quantity : nat) (p : ID) :
  0 < amt -> T + amt < 2 ^ 63 ->
  balanceOf (calculateExpectedBalances T (generateBookings amt quantity p)) p
  = amt * Z.min (Z.of_nat quantity) (Z.max 0 ((T + amt - 1) / amt)).
Proof.
  intros Hamt HM.
  rewrite balanceOf_expected, amountsFor_generateBookings.
  by apply clamp_repeat.
Qed.

Lemma X8_five_credits_of_three :
  0 < 3 /\ 10 + 3 < 2 ^ 63 /\
  balanceOf (calculateExpectedBalances 10 (generateBookings 3 5 1%N)) 1%N
  = 3 * Z.min (Z.of_nat 5) (Z.max 0 ((10 + 3 - 1) / 3)).
Proof.
  assert (0 < 3) as H1 by lia. assert (10 + 3 < 2 ^ 63) as H2 by lia.
  split; [exact H1|]. split; [exact H2|].
  exact (X8_repeated_credits 10 3 5 1%N H1 H2).
Defined.


(** ** More on the peer registry and on [run] *)

(** X9.  Registering a peer whose identifier has no entry and removing it
    again gives back the service as it was. *)
Theorem X9_register_then_remove_restores (s : Swap) (p : Peer) :
  getPeer s (peerID p) = None ->
  removePeer (addPeer s p) p = s.
Proof.
  intros Hnone. destruct s as [bal ps b oc].
  unfold removePeer, addPeer, withPeers, getPeer in *. cbn in *.
  f_equal. by apply delete_insert_id.
Qed.

Lemma X9_at_sample :
  getPeer Sample.service (peerID (mkPeer 7%N Sample.owner Sample.deployed)) = None /\
  removePeer (addPeer Sample.service (mkPeer 7%N Sample.owner Sample.deployed))
             (mkPeer 7%N Sample.owner Sample.deployed)
  = Sample.service.
Proof.
  assert (getPeer Sample.service (peerID (mkPeer 7%N Sample.owner Sample.deployed))
          = None) as Hnone by (cbn; reflexivity).
  split; [exact Hnone|].
  exact (X9_register_then_remove_restores Sample.service
           (mkPeer 7%N Sample.owner Sample.deployed) Hnone).
Defined.

(** X10.  The registry is keyed by the identifier alone.  When a second
    swap peer is registered under the identifier of a first one, it takes
    the place of the first, and removing the first then leaves no entry
    under that identifier, although the second was never removed. *)
Theorem X10_same_identifier_shares_the_entry (s : Swap) (first second : Peer) :
  peerID first = peerID second ->
  getPeer (addPeer (addPeer s first) second) (peerID first) = Some second /\
  getPeer (removePeer (addPeer (addPeer s first) second) first) (peerID second)
  = None.
Proof.
  intros Hid. unfold getPeer, removePeer, addPeer, withPeers. cbn.
  rewrite Hid. split.
  - apply lookup_insert_eq.
  - apply lookup_delete_eq.
Qed.

Lemma X10_at_sample :
  peerID (mkPeer 7%N Sample.owner Sample.deployed)
  = peerID (mkPeer 7%N Sample.owner Sample.library) /\
  getPeer (addPeer (addPeer Sample.service (mkPeer 7%N Sample.owner Sample.deployed))
                   (mkPeer 7%N Sample.owner Sample.library))
          (peerID (mkPeer 7%N Sample.owner Sample.deployed))
  = Some (mkPeer 7%N Sample.owner Sample.library) /\
  getPeer (removePeer
             (addPeer (addPeer Sample.service (mkPeer 7%N Sample.owner Sample.deployed))
                      (mkPeer 7%N Sample.owner Sample.library))
             (mkPeer 7%N Sample.owner Sample.deployed))
          (peerID (mkPeer 7%N Sample.owner Sample.library))
  = None.
Proof.
  assert (peerID (mkPeer 7%N Sample.owner Sample.deployed)
          = peerID (mkPeer 7%N Sample.owner Sample.library)) as Hid
    by (cbn; reflexivity).
  split; [exact Hid|].
  exact (X10_same_identifier_shares_the_entry Sample.service
           (mkPeer 7%N Sample.owner Sample.deployed)
           (mkPeer 7%N Sample.owner Sample.library) Hid).
Defined.

(** X11.  Registrations and removals of peers with different identifiers do
    not interfere: they can be carried out in either order. *)
Theorem X11_distinct_identifiers_commute (s : Swap) (p q : Peer) :
  peerID p <> peerID q ->
  addPeer (removePeer s q) p = removePeer (addPeer s p) q /\
  addPeer (addPeer s p) q = addPeer (addPeer s q) p /\
  removePeer (removePeer s p) q = removePeer (removePeer s q) p /\
  getPeer (addPeer s p) (peerID q) = getPeer s (peerID q) /\
  getPeer (removePeer s p) (peerID q) = getPeer s (peerID q).
Proof.
  intros Hne. unfold getPeer, removePeer, addPeer, withPeers. cbn.
  repeat split.
  - f_equal. symmetry. by apply delete_insert_ne.
  - f_equal. by apply insert_insert_ne.
  - f_equal. apply delete_delete.
  - by apply lookup_insert_ne.
  - by apply lookup_delete_ne.
Qed.

Lemma X11_at_sample :
  peerID (mkPeer 7%N Sample.owner Sample.deployed)
  <> peerID (mkPeer 8%N Sample.owner Sample.deployed) /\
  addPeer (removePeer Sample.service (mkPeer 8%N Sample.owner Sample.deployed))
          (mkPeer 7%N Sample.owner Sample.deployed)
  = removePeer (addPeer Sample.service (mkPeer 7%N Sample.owner Sample.deployed))
               (mkPeer 8%N Sample.owner Sample.deployed).
Proof.
  assert (peerID (mkPeer 7%N Sample.owner Sample.deployed)
          <> peerID (mkPeer 8%N Sample.owner Sample.deployed)) as Hne
    by (cbn; discriminate).
  split; [exact Hne|].
  exact (proj1 (X11_distinct_identifiers_commute Sample.service
                  (mkPeer 7%N Sample.owner Sample.deployed)
                  (mkPeer 8%N Sample.owner Sample.deployed) Hne)).
Defined.

Section RunFacts.

Variable referenceCode : bytes.
Variable handshakeError : error -> error.
Variable logBalance : Swap -> ID -> Swap.
Variable messageLoop : Swap -> Peer -> Swap * Outcome.

Local Abbreviation verifyContract := (Protocol.verifyContract referenceCode).
Local Abbreviation verifyHandshake := (Protocol.verifyHandshake referenceCode).
Local Abbreviation run :=
  (Protocol.run referenceCode handshakeError logBalance messageLoop).

(** The ways [run] goes, read off the handshake. *)
Lemma run_cases (s : Swap) (p : ID) (x : Exchange) :
  (exists err, run s p x = {| final := s; outcome := Returned (Some err);
                              active := None |}) \/
  (exists h b,
      sent x = None /\ received x = Ok (IsHandshakeMsg h) /\
      ContractAddress h <> zeroAddress /\
      verifyContract (backend s) (ContractAddress h) = None /\
      getContractOwner s (ContractAddress h) = Ok b /\
      run s p x
      = let swapPeer := mkPeer p b (ContractAddress h) in
        let s1 := addPeer s swapPeer in
        let result := messageLoop (logBalance s1 p) swapPeer in
        {| final := removePeer (fst result) swapPeer;
           outcome := snd result;
           active := Some s1 |}).
Proof.
  unfold Protocol.run.
  destruct (Protocol.Handshake _ _ _ _) as [answer|err] eqn:Hhs; [|left; eauto].
  apply (Handshake_ok referenceCode handshakeError) in Hhs as (Hsent & Hrecv & Hv).
  apply verifyHandshake_accepts in Hv as (h & -> & Hnz & Hcheck). cbn.
  destruct (getContractOwner s (ContractAddress h)) as [b|err] eqn:Ho; [|left; eauto].
  right. exists h, b. repeat (split; [done|]).
  by destruct (messageLoop _ _).
Qed.

(** X12.  When [run] ends without the session having become active, the
    service is exactly as it was before and [run] has returned an error: it
    never returns nil and never panics before the message loop. *)
Theorem X12_inactive_run_changes_nothing (s : Swap) (p : ID) (x : Exchange) :
  active (run s p x) = None ->
  final (run s p x) = s /\
  exists err, outcome (run s p x) = Returned (Some err).
Proof.
  destruct (run_cases s p x) as [[err ->]|(h & b & _ & _ & _ & _ & _ & ->)].
  - cbn. eauto.
  - cbn. discriminate.
Qed.

(** X13.  When neither [logBalance] nor the message loop touches the peer
    set, all that [run] does to the peer set is to leave no entry under the
    identifier of its peer if the session became active; otherwise the peer
    set is unchanged. *)
Theorem X13_run_only_changes_its_own_entry (s : Swap) (p : ID) (x : Exchange) :
  (forall (s' : Swap) (id : ID), peers (logBalance s' id) = peers s') ->
  (forall (s' : Swap) (q : Peer), peers (fst (messageLoop s' q)) = peers s') ->
  peers (final (run s p x))
  = match active (run s p x) with
    | Some _ => delete p (peers s)
    | None => peers s
    end.
Proof.
  intros Hlog Hloop.
  destruct (run_cases s p x) as [[err ->]|(h & b & _ & _ & _ & _ & _ & ->)].
  - reflexivity.
  - cbn. rewrite Hloop, Hlog. cbn. apply delete_insert_eq.
Qed.

(** X14.  A session becomes active only for a remote side whose handshake
    message declares an address that is not the zero address and passes the
    contract check; the swap peer registered then carries the identifier of
    the peer, the declared address and the owner read for that address, and
    [run] ends the way the message loop ends. *)
Theorem X14_active_only_after_contract_check
    (s : Swap) (p : ID) (x : Exchange) (entered : Swap) :
  active (run s p x) = Some entered ->
  exists (h : HandshakeMsg) (b : Address),
    sent x = None /\ received x = Ok (IsHandshakeMsg h) /\
    ContractAddress h <> zeroAddress /\
    verifyContract (backend s) (ContractAddress h) = None /\
    getContractOwner s (ContractAddress h) = Ok b /\
    entered = addPeer s (mkPeer p b (ContractAddress h)) /\
    outcome (run s p x)
    = snd (messageLoop (logBalance entered p) (mkPeer p b (ContractAddress h))).
Proof.
  destruct (run_cases s p x)
    as [[err ->]|(h & b & Hsent & Hrecv & Hnz & Hcheck & Ho & ->)].
  - discriminate.
  - cbn. intros [= <-]. exists h, b. done.
Qed.

(** X15.  [verifyHandshake] returns nil exactly for a handshake message
    whose contract address is not the zero address and is accepted by the
    contract check. *)
Theorem X15_handshake_accepted_iff (s : Swap) (msg : Msg) :
  verifyHandshake s msg = None <->
  exists h : HandshakeMsg,
    msg = IsHandshakeMsg h /\ ContractAddress h <> zeroAddress /\
    verifyContract (backend s) (ContractAddress h) = None.
Proof.
  split.
  - apply verifyHandshake_accepts.
  - intros (h & -> & Hnz & Hcheck). unfold Protocol.verifyHandshake. cbn.
    by rewrite bool_decide_eq_false_2.
Qed.

End RunFacts.

Lemma X12_at_sample :
  let result :=
    Protocol.run Sample.code ErrHandshake Sample.quiet Sample.loop
                 Sample.service Sample.remotePeer Sample.badExchange in
  active result = None /\
  final result = Sample.service /\
  exists err, outcome result = Returned (Some err).
Proof.
  split; [reflexivity|].
  apply (X12_inactive_run_changes_nothing Sample.code ErrHandshake Sample.quiet
           Sample.loop Sample.service Sample.remotePeer Sample.badExchange).
  reflexivity.
Defined.

Lemma X13_at_sample :
  (forall (s' : Swap) (id : ID), peers (Sample.quiet s' id) = peers s') /\
  (forall (s' : Swap) (q : Peer), peers (fst (Sample.loop s' q)) = peers s') /\
  peers (final (Protocol.run Sample.code ErrHandshake Sample.quiet Sample.loop
                  Sample.service Sample.remotePeer Sample.goodExchange))
  = match active (Protocol.run Sample.code ErrHandshake Sample.quiet Sample.loop
                    Sample.service Sample.remotePeer Sample.goodExchange) with
    | Some _ => delete Sample.remotePeer (peers Sample.service)
    | None => peers Sample.service
    end.
Proof.
  assert (forall (s' : Swap) (id : ID), peers (Sample.quiet s' id) = peers s')
    as Hlog by reflexivity.
  assert (forall (s' : Swap) (q : Peer), peers (fst (Sample.loop s' q)) = peers s')
    as Hloop by reflexivity.
  split; [exact Hlog|]. split; [exact Hloop|].
  exact (X13_run_only_changes_its_own_entry Sample.code ErrHandshake Sample.quiet
           Sample.loop Sample.service Sample.remotePeer Sample.goodExchange
           Hlog Hloop).
Defined.

Lemma X14_at_sample :
  let result :=
    Protocol.run Sample.code ErrHandshake Sample.quiet Sample.loop
                 Sample.service Sample.remotePeer Sample.goodExchange in
  let entered :=
    addPeer Sample.service
            (mkPeer Sample.remotePeer Sample.owner Sample.deployed) in
  active result = Some entered /\
  exists (h : HandshakeMsg) (b : Address),
    sent Sample.goodExchange = None /\
    received Sample.goodExchange = Ok (IsHandshakeMsg h) /\
    ContractAddress h <> zeroAddress /\
    Protocol.verifyContract Sample.code (backend Sample.service) (ContractAddress h)
    = None /\
    getContractOwner Sample.service (ContractAddress h) = Ok b /\
    entered = addPeer Sample.service (mkPeer Sample.remotePeer b (ContractAddress h)) /\
    outcome result
    = snd (Sample.loop (Sample.quiet entered Sample.remotePeer)
                       (mkPeer Sample.remotePeer b (ContractAddress h))).
Proof.
  split; [reflexivity|].
  apply (X14_active_only_after_contract_check Sample.code ErrHandshake Sample.quiet
           Sample.loop Sample.service Sample.remotePeer Sample.goodExchange).
  reflexivity.
Defined.


(** ** The shared test signature *)

Import Slices.

(** What the bytes of a slice become when one byte of the backing array,
    inside the window, is replaced. *)
Lemma contents_insert (h : Heap) (s : slice) (a : list Z) (i : nat) (v : Z) :
  h !! array s = Some a ->
  (offset s + len s <= length a)%nat ->
  (i < len s)%nat ->
  contents (<[array s := <[(offset s + i)%nat := v]> a]> h) s
  = Some (<[i := v]> (take (len s) (drop (offset s) a))).
Proof.
  intros Ha Hfit Hi. unfold contents.
  rewrite lookup_insert_eq. unfold mbind, option_bind. rewrite length_insert.
  destruct (Nat.leb_spec (offset s + len s) (length a)); [|lia].
  rewrite drop_insert_ge by lia.
  replace (offset s + i - offset s)%nat with i by lia.
  by rewrite take_insert_lt.
Qed.

Lemma contents_lookup (h : Heap) (s : slice) (a : list Z) (i : nat) :
  h !! array s = Some a ->
  (offset s + len s <= length a)%nat ->
  (i < len s)%nat ->
  exists old, contents h s = Some old /\ old !! i = a !! (offset s + i)%nat.
Proof.
  intros Ha Hfit Hi. unfold contents. rewrite Ha. unfold mbind, option_bind.
  destruct (Nat.leb_spec (offset s + len s) (length a)); [|lia].
  eexists. split; [reflexivity|].
  by rewrite lookup_take_lt, lookup_drop.
Qed.

Lemma sliceAll_same (s : slice) :
  (len s <= cap s)%nat ->
  sliceAll s = Some {| array := array s; offset := offset s;
                       len := len s; cap := cap s |}.
Proof.
  intros Hlen. unfold sliceAll, reslice.
  change (0 <=? len s)%nat with true. cbn [andb].
  destruct (Nat.leb_spec (len s) (cap s)); [|lia].
  by rewrite Nat.add_0_r, !Nat.sub_0_r.
Qed.

Lemma index_inside (h : Heap) (s : slice) (a : list Z) (i : nat) (b : Z) :
  h !! array s = Some a -> (i < len s)%nat ->
  a !! (offset s + i)%nat = Some b ->
  index h s i = Some b.
Proof.
  intros Ha Hi Hb. unfold index.
  destruct (Nat.ltb_spec i (len s)); [|lia].
  rewrite Ha. exact Hb.
Qed.

Lemma setIndex_inside (h : Heap) (s : slice) (a : list Z) (i : nat) (v : Z) :
  h !! array s = Some a -> (i < len s)%nat ->
  (offset s + i < length a)%nat ->
  setIndex h s i v = Some (<[array s := <[(offset s + i)%nat := v]> a]> h).
Proof.
  intros Ha Hi Hin. unfold setIndex.
  destruct (Nat.ltb_spec i (len s)); [|lia].
  rewrite Ha. unfold mbind, option_bind.
  destruct (Nat.ltb_spec (offset s + i) (length a)); [|lia]. reflexivity.
Qed.

Lemma invalidSignature_steps (h h' : Heap) (s sl : slice) (b : Z) :
  sliceAll s = Some sl ->
  index h sl 27 = Some b ->
  setIndex h sl 27 ((b + 2) mod 256) = Some h' ->
  invalidSignature h s = Some (h', sl).
Proof.
  intros H1 H2 H3. unfold invalidSignature.
  rewrite H1. unfold mbind, option_bind. rewrite H2, H3. reflexivity.
Qed.

(** X16.  [TestVerifyChequeInvalidSignature] builds its invalid signature
    in place: [chequeSig[:]] shares the backing array of [chequeSig], so
    after [invalidSig[27] += 2] the package variable [chequeSig] itself
    reads as the old bytes with 2 added to the byte at index 27, the same
    bytes as the slice stored in the cheque. *)
Theorem X16_invalid_signature_is_built_in_place (h : Heap) (chequeSig : slice) :
  wellPlaced h chequeSig ->
  (27 < len chequeSig)%nat ->
  exists (h' : Heap) (invalidSig : slice) (old : list Z),
    invalidSignature h chequeSig = Some (h', invalidSig) /\
    contents h chequeSig = Some old /\
    contents h' chequeSig = Some (Cheque.bumpByte 27 2 old) /\
    contents h' invalidSig = Some (Cheque.bumpByte 27 2 old).
Proof.
  intros (a & Ha & Hfit & Hlen) H27.
  destruct (contents_lookup h chequeSig a 27 Ha ltac:(lia) H27) as (old & Hold & H27old).
  destruct (lookup_lt_is_Some_2 a (offset chequeSig + 27)%nat ltac:(lia)) as [b Hb].
  pose (sl := {| array := array chequeSig; offset := offset chequeSig;
                 len := len chequeSig; cap := cap chequeSig |}).
  exists (<[array chequeSig := <[(offset chequeSig + 27)%nat := (b + 2) mod 256]> a]> h),
         sl, old.
  assert (Cheque.bumpByte 27 2 old = <[27%nat := (b + 2) mod 256]> old) as ->.
  { unfold Cheque.bumpByte. rewrite H27old, Hb. reflexivity. }
  assert (old = take (len chequeSig) (drop (offset chequeSig) a)) as Hval.
  { unfold contents in Hold. rewrite Ha in Hold. unfold mbind, option_bind in Hold.
    destruct (Nat.leb_spec (offset chequeSig + len chequeSig) (length a)); [|lia].
    congruence. }
  split; [|split; [exact Hold|split]].
  - apply (invalidSignature_steps h _ chequeSig sl b).
    + by apply sliceAll_same.
    + by apply (index_inside h sl a 27 b).
    + apply (setIndex_inside h sl a 27); [exact Ha|exact H27|]. cbn [offset sl]. lia.
  - rewrite Hval.
    apply (contents_insert h chequeSig a 27); [exact Ha|lia|exact H27].
  - rewrite Hval.
    apply (contents_insert h sl a 27); [exact Ha|cbn [offset len sl]; lia|exact H27].
Qed.

(** A signature shorter than 28 bytes makes the test panic instead. *)
Lemma invalidSignature_short (h : Heap) (chequeSig : slice) :
  (len chequeSig <= cap chequeSig)%nat ->
  (len chequeSig <= 27)%nat ->
  invalidSignature h chequeSig = None.
Proof.
  intros Hlen Hshort. unfold invalidSignature.
  rewrite (sliceAll_same chequeSig Hlen). unfold mbind, option_bind, index.
  cbn [len].
  destruct (Nat.ltb_spec 27 (len chequeSig)); [lia|]. reflexivity.
Qed.

Lemma X16_on_the_test_signature :
  let h : Heap := {[ 0%nat := Cheque.chequeSig ]} in
  let chequeSig := {| array := 0; offset := 0; len := 65; cap := 65 |} in
  wellPlaced h chequeSig /\
  (27 < len chequeSig)%nat /\
  exists (h' : Heap) (invalidSig : slice) (old : list Z),
    invalidSignature h chequeSig = Some (h', invalidSig) /\
    contents h chequeSig = Some old /\
    contents h' chequeSig = Some (Cheque.bumpByte 27 2 old) /\
    contents h' invalidSig = Some (Cheque.bumpByte 27 2 old).
Proof.
  cbv zeta.
  assert (wellPlaced {[ 0%nat := Cheque.chequeSig ]}
            {| array := 0; offset := 0; len := 65; cap := 65 |}) as Hwp.
  { exists Cheque.chequeSig. split; [reflexivity|].
    change (length Cheque.chequeSig) with 65%nat. cbn. lia. }
  assert (27 < len {| array := 0; offset := 0; len := 65; cap := 65 |})%nat as H27
    by (cbn; lia).
  split; [exact Hwp|]. split; [exact H27|].
  exact (X16_invalid_signature_is_built_in_place _ _ Hwp H27).
Defined.

